(** * soql-app: credential resolution, request building, pagination and
      materialisation of [src/soql-app.py], as a shallow embedding.

    Python values that flow through the program all come from [json.load],
    [response.json()] or the form widgets, so the embedding works over a
    JSON value type.  A Python [str] is a sequence of Unicode code points and
    is modelled as a list of code points; a [dict] keeps insertion order and
    is modelled as an association list whose first binding of a key is the
    effective one. *)

From Stdlib Require Import List Bool NArith ZArith QArith Lia.
From Stdlib Require Import Ascii String DecimalString.
Import ListNotations.

Local Close Scope Q_scope.
Local Close Scope string_scope.
Local Open Scope list_scope.

Set Implicit Arguments.

(* ------------------------------------------------------------------ *)
(** ** Python strings *)

Module PyStr.

(** A [str]: the list of its code points. *)
Definition str := list N.

(** The [str] written by an ASCII literal of the source. *)
Definition lit (s : string) : str :=
  map N_of_ascii (list_ascii_of_string s).

(** The double-quote character, U+0022. *)
Definition dquote : str := [34%N].

Fixpoint eqb (s t : str) : bool :=
  match s, t with
  | [], [] => true
  | a :: s', b :: t' => N.eqb a b && eqb s' t'
  | _, _ => false
  end.

(** [s.startswith(p)] for one prefix [p]. *)
Fixpoint startswith (s p : str) : bool :=
  match p, s with
  | [], _ => true
  | b :: p', a :: s' => N.eqb a b && startswith s' p'
  | _ :: _, [] => false
  end.

(** [s.startswith((p1, p2, ...))]: some prefix of the tuple matches. *)
Definition startswith_any (s : str) (ps : list str) : bool :=
  existsb (startswith s) ps.

(** [str.isspace] on one code point, the table CPython's [str.strip()]
    consults ([_PyUnicode_IsWhitespace]). *)
Definition isspace (c : N) : bool :=
  ((9 <=? c) && (c <=? 13) ||
   (28 <=? c) && (c <=? 32) ||
   (c =? 133) || (c =? 160) || (c =? 5760) ||
   (8192 <=? c) && (c <=? 8202) ||
   (c =? 8232) || (c =? 8233) || (c =? 8239) || (c =? 8287) ||
   (c =? 12288))%N.

Fixpoint lstrip (s : str) : str :=
  match s with
  | [] => []
  | c :: s' => if isspace c then lstrip s' else s
  end.

Definition rstrip (s : str) : str := rev (lstrip (rev s)).

(** [s.strip()] with no argument. *)
Definition strip (s : str) : str := rstrip (lstrip s).

(** [str(n)] for an [int]. *)
Definition of_int (n : Z) : str :=
  lit (NilZero.string_of_int (Z.to_int n)).

End PyStr.

Import PyStr.

(* ------------------------------------------------------------------ *)
(** ** JSON values, as Python sees them after [json.load] *)

(** A Python [float]: [json] also accepts the literals [NaN], [Infinity]
    and [-Infinity]. *)
Inductive pyfloat :=
| Finite (q : Q)
| PosInf
| NegInf
| NaN.

#[warnings="-register-all"]
Inductive json :=
| JNull                                (* None *)
| JBool (b : bool)
| JInt (n : Z)
| JFloat (f : pyfloat)
| JStr (s : str)
| JArr (items : list json)
| JObj (kvs : list (str * json)).

(** Truth value of an object, as [if x], [not x] and [x or y] test it. *)
Definition truthy (v : json) : bool :=
  match v with
  | JNull => false
  | JBool b => b
  | JInt n => negb (n =? 0)%Z
  | JFloat (Finite q) => negb (Qeq_bool q 0)
  | JFloat _ => true
  | JStr s => match s with [] => false | _ => true end
  | JArr items => match items with [] => false | _ => true end
  | JObj kvs => match kvs with [] => false | _ => true end
  end.

(** [x or y] (both operands here are already evaluated and cannot raise). *)
Definition py_or (x y : json) : json := if truthy x then x else y.

(** Lookup in a [dict]. *)
Fixpoint lookup (k : str) (kvs : list (str * json)) : option json :=
  match kvs with
  | [] => None
  | (k', v) :: rest => if PyStr.eqb k k' then Some v else lookup k rest
  end.

(* ------------------------------------------------------------------ *)
(** ** Exceptions and results *)

Inductive exn :=
| ValueError (msg : str)
| AttributeError        (* attribute missing on a value: [.get], [.strip] *)
| TypeError
| UnboundLocalError
| JSONDecodeError
| RequestException (msg : str).   (* raised inside [requests.get] *)

Inductive result (A : Type) :=
| Ok (a : A)
| Raise (e : exn).

Arguments Ok {A} a.
Arguments Raise {A} e.

Definition bind {A B} (m : result A) (f : A -> result B) : result B :=
  match m with
  | Ok a => f a
  | Raise e => Raise e
  end.

Notation "x <- m ;; k" := (bind m (fun x => k))
  (at level 61, m at next level, right associativity).

(** [d.get(k)]: [None] when the key is missing; a value that is not a
    [dict] has no [get] attribute. *)
Definition get (d : json) (k : str) : result json :=
  match d with
  | JObj kvs => Ok (match lookup k kvs with Some v => v | None => JNull end)
  | _ => Raise AttributeError
  end.

(** [d.get(k, default)]. *)
Definition get_default (d : json) (k : str) (default : json) : result json :=
  match d with
  | JObj kvs => Ok (match lookup k kvs with Some v => v | None => default end)
  | _ => Raise AttributeError
  end.

(* ------------------------------------------------------------------ *)
(** ** [load_auth_credentials] (lines 18-37) *)

(** The returned dict, with its two fixed keys. *)
Record credentials := {
  access_token : json;
  instance_url : json
}.

Definition missing_credentials : str :=
  lit "Missing required credentials in auth.json".

(** [auth_data] is the value [json.load(auth_file)] produced. *)
Definition load_auth_credentials (auth_data : json) : result credentials :=
  snake_token <- get auth_data (lit "access_token") ;;
  camel_token <- get auth_data (lit "accessToken") ;;
  let access_token := py_or snake_token camel_token in
  snake_url <- get auth_data (lit "instance_url") ;;
  camel_url <- get auth_data (lit "instanceUrl") ;;
  let instance_url := py_or snake_url camel_url in
  if negb (truthy access_token) || negb (truthy instance_url)
  then Raise (ValueError missing_credentials)
  else Ok {| access_token := access_token; instance_url := instance_url |}.

(* ------------------------------------------------------------------ *)
(** ** Requests, responses and what the page shows *)

(** What the program reads of a [requests.Response]: [json_body] is the
    value [response.json()] returns, [None] when the body does not parse
    (the call then raises). *)
Record response := {
  status_code : Z;
  text : str;
  json_body : option json
}.

(** What one call of [requests.get] does: it returns a response, or raises
    (connection refused, timeout, invalid URL, ...). *)
Inductive reply :=
| Responds (r : response)
| Fails (e : exn).

(** One call of [requests.get(full_url, headers=headers)]. *)
Record request := {
  req_url : json;
  req_headers : list (str * str)
}.

(** First occurrences of the elements of [l] that are not in [seen], in
    order: the order in which a Python dict or an ordered union keeps its
    keys. *)
Fixpoint first_seen (seen l : list str) : list str :=
  match l with
  | [] => []
  | x :: l' =>
      if existsb (PyStr.eqb x) seen then first_seen seen l'
      else x :: first_seen (x :: seen) l'
  end.

(** The keys of a dict, in insertion order. *)
Definition keys (kvs : list (str * json)) : list str :=
  first_seen [] (map fst kvs).

(** [list(x)], the items [all_records.extend(x)] appends: the elements of a
    list, the characters of a str, the keys of a dict; the other JSON
    values are not iterable. *)
Definition iterate (x : json) : result (list json) :=
  match x with
  | JArr items => Ok items
  | JStr s => Ok (map (fun c => JStr [c]) s)
  | JObj kvs => Ok (map JStr (keys kvs))
  | _ => Raise TypeError
  end.

(* ------------------------------------------------------------------ *)
(** ** The table of the materializer *)

(** A record of the result set: one dict of the ['records'] list. *)
Definition record := list (str * json).

Inductive cell :=
| Missing                 (* the null/missing marker *)
| Value (v : json).

Record table := {
  columns : list str;
  rows : list (list cell)
}.

Definition field (r : record) (c : str) : cell :=
  match lookup c r with
  | Some v => Value v
  | None => Missing
  end.

(** Modelled from the spec: [pd.DataFrame] belongs to pandas and is not in
    src/.  The spec (section 3, Table) gives the frame built from records:
    the columns are the union of the field names seen across the records,
    in first-seen order, and each record becomes one row, with the missing
    marker where the record lacks the field. *)
Definition Table (records : list record) : table :=
  let columns := first_seen [] (flat_map (map fst) records) in
  {| columns := columns;
     rows := map (fun r => map (field r) columns) records |}.

(** The data as records, when every item is a dict. *)
Fixpoint as_records (data : list json) : option (list record) :=
  match data with
  | [] => Some []
  | JObj kvs :: rest => option_map (cons kvs) (as_records rest)
  | _ :: _ => None
  end.

(** A frame: the table of a list of records, or whatever pandas builds from
    other data, which the spec does not describe. *)
Inductive frame_of (other : Type) :=
| RecordFrame (t : table)
| OtherFrame (o : other).

Arguments RecordFrame {other} t.
Arguments OtherFrame {other} o.

(** Modelled from the spec: [pd.DataFrame(data)], which is [Table] on a list
    of records; [DataFrame_other] stands for the constructor on any other
    list. *)
Definition DataFrame_records (other : Type)
    (DataFrame_other : list json -> result other) (data : list json)
    : result (frame_of other) :=
  match as_records data with
  | Some records => Ok (RecordFrame (Table records))
  | None => o <- DataFrame_other data ;; Ok (OtherFrame o)
  end.

(** Modelled from the spec: [urllib.parse.urljoin] is library code and is
    not in src/.  Section 4.2: an absolute URL is passed through unchanged
    and a path beginning with [/] replaces the path component of the base.
    This instance covers a base that is a bare origin ([scheme://host], no
    path), for which replacing the path appends the reference, and raises
    on none of the strs of the scenarios; it serves to run the program on
    them. *)
Definition urljoin_origin (base url : str) : result str :=
  if startswith_any url [lit "http://"; lit "https://"]
  then Ok url
  else Ok (base ++ url).

(** The data of the scenarios on which the properties are run. *)
Module Scenario.

Definition base : str := lit "https://my-org.my.salesforce.com".

Definition auth_credentials : credentials :=
  {| access_token := JStr (lit "tok1");
     instance_url := JStr (lit "my-org.my.salesforce.com") |}.

Definition soql_query : str := lit "SELECT Id, Name FROM Account".

Definition api_version : str := lit "60.0".

Definition headers : list (str * str) :=
  [ (lit "Authorization", lit "Bearer tok1");
    (lit "Content-Type", lit "application/json") ].

Definition full_url : str :=
  lit "https://my-org.my.salesforce.com/services/data/v60.0/query?q=SELECT Id, Name FROM Account".

Definition records : list record :=
  [ [(lit "Id", JStr (lit "001")); (lit "Name", JStr (lit "Acme"))];
    [(lit "Id", JStr (lit "002")); (lit "Type", JStr (lit "Partner"))];
    [(lit "Name", JNull); (lit "Id", JStr (lit "003"))] ].

Definition r1 : json :=
  JObj [(lit "Id", JStr (lit "001")); (lit "Name", JStr (lit "Acme"))].

Definition r2 : json :=
  JObj [(lit "Id", JStr (lit "002")); (lit "Type", JStr (lit "Partner"))].

Definition r3 : json :=
  JObj [(lit "Name", JNull); (lit "Id", JStr (lit "003"))].

Definition page1 : response :=
  {| status_code := 200; text := [];
     json_body := Some (JObj [(lit "records", JArr [r1; r2]);
                              (lit "nextRecordsUrl",
                               JStr (lit "/query/01g-500"))]) |}.

Definition page2 : response :=
  {| status_code := 200; text := [];
     json_body := Some (JObj [(lit "records", JArr [r3])]) |}.

Definition empty_page : response :=
  {| status_code := 200; text := [];
     json_body := Some (JObj [(lit "totalSize", JInt 0);
                              (lit "records", JArr [])]) |}.

Definition forbidden : response :=
  {| status_code := 403; text := lit "expired"; json_body := None |}.

(** The scenarios hold strs where an f-string formats a value; the table
    is the one of the spec and the CSV bytes are not looked at. *)
Definition format_value (v : json) : str := [].

(** [str(e)] for the exceptions of the scenarios: the message of those that
    carry one, and for the others the text Python gives them where the
    scenarios raise them ([response.json()] on a body that begins with
    [<], [urljoin] on a number, [.get] on a list, the unassigned
    [last_response]). *)
Definition exn_text (e : exn) : str :=
  match e with
  | ValueError msg => msg
  | RequestException msg => msg
  | JSONDecodeError => lit "Expecting value: line 1 column 1 (char 0)"
  | TypeError => lit "Cannot mix str and non-str arguments"
  | AttributeError => lit "'list' object has no attribute 'get'"
  | UnboundLocalError =>
      lit "cannot access local variable 'last_response' where it is not associated with a value"
  end.
Definition DataFrame : list json -> result (frame_of Empty_set) :=
  DataFrame_records (fun _ => Raise TypeError).
Definition to_csv (df : frame_of Empty_set) : result unit := Ok tt.

End Scenario.

(** More replies and blobs, for the edge cases. *)
Module Edge.

(** A 200 response whose object has no ['records']. *)
Definition no_records : response :=
  {| status_code := 200; text := [];
     json_body := Some (JObj [(lit "done", JBool true)]) |}.

(** A page whose ['nextRecordsUrl'] is [null]. *)
Definition null_next : response :=
  {| status_code := 200; text := [];
     json_body := Some (JObj [(lit "records", JArr [Scenario.r3]);
                              (lit "nextRecordsUrl", JNull)]) |}.

(** A page whose ['nextRecordsUrl'] is a number. *)
Definition numeric_next : response :=
  {| status_code := 200; text := [];
     json_body := Some (JObj [(lit "records", JArr [Scenario.r3]);
                              (lit "nextRecordsUrl", JInt 7)]) |}.

(** A page that refers back to the URL of the first request. *)
Definition looping : response :=
  {| status_code := 200; text := [];
     json_body := Some (JObj [(lit "records", JArr [Scenario.r1]);
                              (lit "nextRecordsUrl",
                               JStr Scenario.full_url)]) |}.

(** A 200 response whose body is not JSON. *)
Definition not_json_page : response :=
  {| status_code := 200; text := lit "<html>"; json_body := None |}.

(** A blob whose endpoint is three blanks. *)
Definition blank_blob : json :=
  JObj [(lit "access_token", JStr (lit "tok1"));
        (lit "instance_url", JStr (lit "   "))].

(** A blob with a [null] snake_case token and a key of no concern. *)
Definition null_token_blob : list (str * json) :=
  [(lit "username", JStr (lit "me@example.com"));
   (lit "access_token", JNull);
   (lit "accessToken", JStr (lit "tok1"));
   (lit "instance_url", JStr (lit "my-org.my.salesforce.com"))].

Definition timeout : exn := RequestException (lit "timed out").

(** A page whose reference opens a bracket in the host and does not close
    it. *)
Definition bracket_next : response :=
  {| status_code := 200; text := [];
     json_body := Some (JObj [(lit "records", JArr [Scenario.r3]);
                              (lit "nextRecordsUrl", JStr (lit "//["))]) |}.

(** [urljoin_origin], with the two strs of these scenarios on which
    [urllib.parse.urljoin] raises: the base [https://[] and the reference
    [//[], whose host opens a bracket that is not closed. *)
Definition urljoin_strict (base url : str) : result str :=
  if PyStr.eqb base (lit "https://[") || PyStr.eqb url (lit "//[")
  then Raise (ValueError (lit "Invalid IPv6 URL"))
  else urljoin_origin base url.

End Edge.

(* ------------------------------------------------------------------ *)
(** ** The program *)

Section Program.

(** Library functions the program calls and does not define. *)

(** [urllib.parse.urljoin(base, url)] on two strs: the joined URL, or the
    exception the call raises (a [ValueError] on a str it cannot parse,
    such as an unclosed bracket in the host). *)
Variable urljoin : str -> str -> result str.

(** [str(v)], the text an f-string inserts for a value that is not a str. *)
Variable format_value : json -> str.

(** [str(e)] for an exception. *)
Variable exn_text : exn -> str.

(** pandas: the frame type, [pd.DataFrame(data)] (which may raise) and
    [df.to_csv(index=False).encode('utf-8')]. *)
Variable frame : Type.
Variable DataFrame : list json -> result frame.
Variable csv : Type.
Variable to_csv : frame -> result csv.

(** The calls on [st] that show something on the page. *)
Inductive ui_event :=
| st_error (msg : str)
| st_warning (msg : str)
| st_dataframe (df : frame)
| st_download_button (data : csv)
| st_write (msg : str)
| st_code (body : str)
| st_json (body : json).

(** *** [fetch_data] (lines 39-68) *)

(** How a call of [fetch_data] ends: it returns its pair, an exception
    leaves it, or the scripted replies ran out before the loop stopped. *)
Inductive fetched :=
| Returned (data : option (list json)) (last_response : option json)
| Raised (e : exn)
| Unanswered.

Record fetch_run := {
  outcome : fetched;
  sent : list request;        (* the calls of [requests.get], in order *)
  shown : list ui_event
}.

(** [urljoin(instance_url, full_url)] for a truthy [full_url] that need not
    be a str: on a str it is [urljoin], which may raise; an empty base
    returns another value as it is, otherwise a value that is not a str is
    refused. *)
Definition urljoin_value (base : str) (url : json) : result json :=
  match url with
  | JStr s => joined <- urljoin base s ;; Ok (JStr joined)
  | _ => match base with [] => Ok url | _ => Raise TypeError end
  end.

Definition failed_to_fetch (r : response) : str :=
  lit "Failed to fetch data: " ++ of_int (status_code r) ++ lit " " ++ text r.

(** The [while full_url:] loop.  [script] holds the replies the successive
    calls of [requests.get] receive; the loop variables are [full_url],
    [all_records] and [last_response] (unbound until the first page). *)
Fixpoint fetch_loop (headers : list (str * str)) (base : str)
    (all_pages : bool) (script : list reply) (full_url : json)
    (all_records : list json) (last_response : option json)
    (sent : list request) : fetch_run :=
  if truthy full_url then
    let sent := sent ++ [{| req_url := full_url; req_headers := headers |}] in
    let stop o evs := {| outcome := o; sent := sent; shown := evs |} in
    match script with
    | [] => stop Unanswered []
    | Fails e :: _ => stop (Raised e) []
    | Responds response :: script' =>
        if negb (status_code response =? 200)%Z then
          stop (Returned None None) [st_error (failed_to_fetch response)]
        else
          match json_body response with
          | None => stop (Raised JSONDecodeError) []
          | Some last =>
              match (records <- get_default last (lit "records") (JArr []) ;;
                     iterate records) with
              | Raise e => stop (Raised e) []
              | Ok items =>
                  let all_records := all_records ++ items in
                  if all_pages then
                    match (next <- get_default last (lit "nextRecordsUrl") JNull ;;
                           if truthy next then urljoin_value base next
                           else Ok next) with
                    | Raise e => stop (Raised e) []
                    | Ok full_url =>
                        fetch_loop headers base all_pages script' full_url
                                   all_records (Some last) sent
                    end
                  else stop (Returned (Some all_records) (Some last)) []
              end
          end
    end
  else
    {| outcome := match last_response with
                  | Some _ => Returned (Some all_records) last_response
                  | None => Raised UnboundLocalError
                  end;
       sent := sent; shown := [] |}.

Definition fetch_data (script : list reply) (full_url : str)
    (headers : list (str * str)) (instance_url : str) (all_pages : bool)
    : fetch_run :=
  fetch_loop headers instance_url all_pages script (JStr full_url) [] None [].

(** *** [main], from the uploaded credentials on (lines 95-212)

    The title, the help text of the sidebar and the widgets show the same
    thing on every run and are left out; the values the widgets return are
    arguments. *)

Definition schemes : list str := [lit "http://"; lit "https://"].

(** Lines 98-102, on the str stored under ['instance_url']. *)
Definition normalize_instance_url (raw : str) : str :=
  let instance_url := strip raw in
  if negb (startswith_any instance_url schemes)
  then lit "https://" ++ instance_url
  else instance_url.

(** Lines 97-102: the credentials and the local [instance_url].  A value
    that is not a str has no [strip]. *)
Definition resolve_credentials (auth_data : json)
    : result (credentials * str) :=
  auth_credentials <- load_auth_credentials auth_data ;;
  match instance_url auth_credentials with
  | JStr raw => Ok (auth_credentials, normalize_instance_url raw)
  | _ => Raise AttributeError
  end.

(** Lines 162-164. *)
Definition endpoint_path (api_version : str) (use_tooling_api : bool) : str :=
  let endpoint_path := lit "/services/data/v" ++ api_version ++ lit "/query" in
  if use_tooling_api
  then lit "/services/data/v" ++ api_version ++ lit "/tooling/query"
  else endpoint_path.

(** Line 167: the call of [urljoin] may raise. *)
Definition form_full_url (instance_url api_version : str)
    (use_tooling_api : bool) (soql_query : str) : result str :=
  urljoin instance_url
    (endpoint_path api_version use_tooling_api ++ lit "?q=" ++ soql_query).

(** An f-string field. *)
Definition f_field (v : json) : str :=
  match v with
  | JStr s => s
  | _ => format_value v
  end.

(** Lines 170-173. *)
Definition make_headers (auth_credentials : credentials) : list (str * str) :=
  [ (lit "Authorization", lit "Bearer " ++ f_field (access_token auth_credentials));
    (lit "Content-Type", lit "application/json") ].

(** How [main] ends. *)
Inductive ending :=
| Finished
| Uncaught (e : exn)      (* raised outside the [try] *)
| NoReply.                (* the scripted replies ran out *)

Record main_run := {
  ended : ending;
  requests_made : list request;
  page : list ui_event
}.

Definition an_error_occurred (e : exn) : list ui_event :=
  [st_error (lit "An error occurred: " ++ exn_text e)].

(** Lines 179-209, inside the [try]: what is shown for the pair
    [fetch_data] returned. *)
Definition materialize (full_url : str) (data : option (list json))
    (last_response : option json) : list ui_event :=
  match data with
  | None => []
  | Some [] => [st_warning (lit "No data found.")]
  | Some data =>
      match DataFrame data with
      | Raise e => an_error_occurred e
      | Ok df =>
          st_dataframe df ::
          match to_csv df with
          | Raise e => an_error_occurred e
          | Ok csv =>
              [st_download_button csv;
               st_write (lit "**Formed API URL:**");
               st_code full_url] ++
              match last_response with
              | Some last =>
                  if truthy last
                  then [st_write (lit "**JSON Response:**"); st_json last]
                  else []
              | None => []
              end
          end
      end
  end.

(** Lines 175-212, the [try]: the fetch and what is shown for it. *)
Definition try_fetch (script : list reply) (full_url : str)
    (headers : list (str * str)) (instance_url : str) (all_pages : bool)
    : main_run :=
  let run := fetch_data script full_url headers instance_url all_pages in
  match outcome run with
  | Returned data last_response =>
      {| ended := Finished; requests_made := sent run;
         page := shown run ++ materialize full_url data last_response |}
  | Raised e =>
      {| ended := Finished; requests_made := sent run;
         page := shown run ++ an_error_occurred e |}
  | Unanswered =>
      {| ended := NoReply; requests_made := sent run; page := shown run |}
  end.

(** Lines 156-212: the button was pressed.  The URL is formed before the
    [try], so an exception of [urljoin] there is not caught. *)
Definition execute_query (script : list reply)
    (auth_credentials : credentials) (instance_url : str)
    (soql_query api_version : str) (use_tooling_api all_pages : bool)
    : main_run :=
  match soql_query with
  | [] => {| ended := Finished; requests_made := [];
             page := [st_error (lit "SOQL query is required.")] |}
  | _ =>
      match form_full_url instance_url api_version use_tooling_api
                          soql_query with
      | Raise e => {| ended := Uncaught e; requests_made := []; page := [] |}
      | Ok full_url =>
          let headers := make_headers auth_credentials in
          try_fetch script full_url headers instance_url all_pages
      end
  end.

Definition main (script : list reply) (auth_data : json)
    (soql_query api_version : str) (use_tooling_api all_pages : bool)
    : main_run :=
  match resolve_credentials auth_data with
  | Raise e => {| ended := Uncaught e; requests_made := []; page := [] |}
  | Ok (auth_credentials, instance_url) =>
      execute_query script auth_credentials instance_url
                    soql_query api_version use_tooling_api all_pages
  end.

(** [main] as a whole (lines 93-156): [auth_json] is what the uploader
    returns, [None] while no file is uploaded, and [button] tells whether
    the button was pressed on this run.  The credentials are loaded as soon
    as a file is there; the query runs when the button is pressed. *)
Definition main_form (script : list reply) (auth_json : option json)
    (soql_query api_version : str) (use_tooling_api all_pages : bool)
    (button : bool) : main_run :=
  match auth_json with
  | None => {| ended := Finished; requests_made := []; page := [] |}
  | Some auth_data =>
      match resolve_credentials auth_data with
      | Raise e => {| ended := Uncaught e; requests_made := []; page := [] |}
      | Ok (auth_credentials, instance_url) =>
          if button
          then execute_query script auth_credentials instance_url
                             soql_query api_version use_tooling_api all_pages
          else {| ended := Finished; requests_made := []; page := [] |}
      end
  end.

(* ------------------------------------------------------------------ *)
(** ** Vocabulary of the properties *)

(** No whitespace at the front. *)
Definition no_lead (s : str) : bool :=
  match s with
  | [] => true
  | c :: _ => negb (isspace c)
  end.

(** The value [d.get(k)] yields on a dict. *)
Definition value_at (kvs : list (str * json)) (k : str) : json :=
  match lookup k kvs with
  | Some v => v
  | None => JNull
  end.

(** The dict without its key [k]. *)
Definition delete (k : str) (kvs : list (str * json)) : list (str * json) :=
  filter (fun kv => negb (PyStr.eqb k (fst kv))) kvs.

(** The two things a credential blob must give, and the key names under
    which each one is accepted, snake_case first. *)
Inductive concept :=
| Token
| Endpoint.

Definition aliases (c : concept) : str * str :=
  match c with
  | Token => (lit "access_token", lit "accessToken")
  | Endpoint => (lit "instance_url", lit "instanceUrl")
  end.

Definition other_concept (c : concept) : concept :=
  match c with
  | Token => Endpoint
  | Endpoint => Token
  end.

(** Neither alias of the concept holds a truthy value. *)
Definition unresolved (kvs : list (str * json)) (c : concept) : bool :=
  negb (truthy (value_at kvs (fst (aliases c)))) &&
  negb (truthy (value_at kvs (snd (aliases c)))).

(** The key is missing, or bound to the empty str. *)
Definition absent_or_empty (kvs : list (str * json)) (k : str) : Prop :=
  lookup k kvs = None \/ lookup k kvs = Some (JStr []).

(** The claim that the credential error tells which concept is the missing
    one: some reading of the exception gives the concept back whenever
    exactly that concept is unresolved. *)
Definition reports_offending_field : Prop :=
  exists offending : exn -> concept,
    forall (kvs : list (str * json)) (c : concept),
      unresolved kvs c = true ->
      unresolved kvs (other_concept c) = false ->
      exists e, load_auth_credentials (JObj kvs) = Raise e /\ offending e = c.

(** The request URL in the words of the spec (section 4.2): the path
    template of the chosen surface, the query text appended as it is under
    the key [q], resolved against the base URL. *)
Definition spec_request_url (baseUrl apiVersion queryText : str)
    (useAlternateSurface : bool) : result str :=
  let surface :=
    if useAlternateSurface then lit "/tooling/query" else lit "/query" in
  urljoin baseUrl
    (lit "/services/data/v" ++ apiVersion ++ surface ++
     lit "?q=" ++ queryText).

Definition nonempty (s : str) : bool :=
  match s with
  | [] => false
  | _ :: _ => true
  end.

(** The records of a page: the response has status 200 and its body is an
    object whose ['records'] is a list. *)
Definition page_items (r : response) : option (list json) :=
  if (status_code r =? 200)%Z then
    match json_body r with
    | Some (JObj kvs) =>
        match lookup (lit "records") kvs with
        | Some (JArr items) => Some items
        | _ => None
        end
    | _ => None
    end
  else None.

(** The continuation reference a page carries: a non-empty str under
    ['nextRecordsUrl']. *)
Definition continuation (r : response) : option str :=
  match json_body r with
  | Some (JObj kvs) =>
      match lookup (lit "nextRecordsUrl") kvs with
      | Some (JStr (c :: u)) => Some (c :: u)
      | _ => None
      end
  | _ => None
  end.

(** The page has no ['nextRecordsUrl'] key. *)
Definition omits_continuation (r : response) : bool :=
  match json_body r with
  | Some (JObj kvs) =>
      match lookup (lit "nextRecordsUrl") kvs with
      | None => true
      | Some _ => false
      end
  | _ => false
  end.

(** What [urljoin] returned, the empty str when it raised. *)
Definition joined (r : result str) : str :=
  match r with
  | Ok url => url
  | Raise _ => []
  end.

(** A page that carries a continuation reference, which [urljoin] resolves
    against [base] to a URL. *)
Definition continues (base : str) (r : response) : bool :=
  match page_items r, continuation r with
  | Some _, Some u => nonempty (joined (urljoin base u))
  | _, _ => false
  end.

(** A page that omits the continuation reference. *)
Definition final_page (r : response) : bool :=
  match page_items r with
  | Some _ => omits_continuation r
  | None => false
  end.

(** The URL a page leads to. *)
Definition next_url (base url : str) (r : response) : str :=
  match continuation r with
  | Some u => joined (urljoin base u)
  | None => url
  end.

(** The URLs requested for the pages [rs], the first one at [url]. *)
Fixpoint visited (base url : str) (rs : list response) : list str :=
  match rs with
  | [] => []
  | r :: rs' => url :: visited base (next_url base url r) rs'
  end.

(** The URL reached after the pages [rs]. *)
Fixpoint follow (base url : str) (rs : list response) : str :=
  match rs with
  | [] => url
  | r :: rs' => follow base (next_url base url r) rs'
  end.

(** The record lists of the pages, one after the other. *)
Definition items_of (rs : list response) : list json :=
  flat_map (fun r => match page_items r with
                     | Some items => items
                     | None => []
                     end) rs.

(** The body of the last page of [rs], [last] when there is none. *)
Definition last_body (last : option json) (rs : list response) : option json :=
  fold_left (fun _ r => json_body r) rs last.

(** The call [requests.get(url, headers=headers)]. *)
Definition request_of (headers : list (str * str)) (url : str) : request :=
  {| req_url := JStr url; req_headers := headers |}.

(** The body of the failed response of the scenario: an object whose key
    message holds the str expired, each between double quotes. *)
Definition expired_body : str :=
  lit "{" ++ dquote ++ lit "message" ++ dquote ++ lit ":" ++
  dquote ++ lit "expired" ++ dquote ++ lit "}".

Definition no_data_page : list ui_event :=
  [st_warning (lit "No data found.")].

(** The value is a dict. *)
Definition is_dict (v : json) : bool :=
  match v with
  | JObj _ => true
  | _ => false
  end.

(** The value is a str. *)
Definition is_str (v : json) : bool :=
  match v with
  | JStr _ => true
  | _ => false
  end.

(** What [last_response.get('nextRecordsUrl', None)] yields for a page. *)
Definition continuation_value (r : response) : json :=
  match json_body r with
  | Some (JObj kvs) => value_at kvs (lit "nextRecordsUrl")
  | _ => JNull
  end.

(** The items a page adds to [all_records]: the response has status 200,
    its body is an object, and what it holds under ['records'] (the empty
    list when the key is missing) can be iterated. *)
Definition page_records (r : response) : option (list json) :=
  if (status_code r =? 200)%Z then
    match json_body r with
    | Some (JObj kvs) =>
        match iterate (match lookup (lit "records") kvs with
                       | Some v => v
                       | None => JArr []
                       end) with
        | Ok items => Some items
        | Raise _ => None
        end
    | _ => None
    end
  else None.

(** A response with status 200 that makes the loop raise: the body is not
    JSON, or is not an object, or its ['records'] cannot be iterated. *)
Inductive malformed : response -> exn -> Prop :=
| not_json (r : response) :
    json_body r = None -> malformed r JSONDecodeError
| not_object (r : response) (j : json) :
    json_body r = Some j -> is_dict j = false -> malformed r AttributeError
| not_iterable (r : response) (kvs : list (str * json)) (v : json) :
    json_body r = Some (JObj kvs) ->
    lookup (lit "records") kvs = Some v ->
    iterate v = Raise TypeError ->
    malformed r TypeError.

(* ------------------------------------------------------------------ *)
(** ** Facts about strs *)

Lemma eqb_eq (s t : str) : PyStr.eqb s t = true <-> s = t.
Proof.
  revert t; induction s as [|a s IH]; intros [|b t]; simpl;
    try (split; [discriminate | discriminate]); [tauto|].
  rewrite andb_true_iff, N.eqb_eq, IH.
  split; [intros [-> ->]; reflexivity | intros E; inversion E; auto].
Qed.

Lemma eqb_refl (s : str) : PyStr.eqb s s = true.
Proof. apply eqb_eq; reflexivity. Qed.

Lemma eqb_neq (s t : str) : PyStr.eqb s t = false <-> s <> t.
Proof.
  rewrite <- eqb_eq. destruct (PyStr.eqb s t); split; congruence.
Qed.

Lemma lstrip_suffix (s : str) : exists w, s = w ++ lstrip s.
Proof.
  induction s as [|c s [w IH]]; simpl.
  - exists []; reflexivity.
  - destruct (isspace c).
    + exists (c :: w); simpl; congruence.
    + exists []; reflexivity.
Qed.

Lemma lstrip_no_lead (s : str) : no_lead (lstrip s) = true.
Proof.
  induction s as [|c s IH]; simpl; [reflexivity|].
  destruct (isspace c) eqn:E; [exact IH|]. simpl; rewrite E; reflexivity.
Qed.

Lemma lstrip_fixed (s : str) : no_lead s = true -> lstrip s = s.
Proof.
  destruct s as [|c s]; simpl; [reflexivity|].
  destruct (isspace c); [discriminate | reflexivity].
Qed.

Lemma no_lead_app (s t : str) : s <> [] -> no_lead (s ++ t) = no_lead s.
Proof. destruct s; [congruence | reflexivity]. Qed.

Lemma rstrip_prefix (s : str) : exists w, s = rstrip s ++ w.
Proof.
  unfold rstrip. destruct (lstrip_suffix (rev s)) as [w E].
  exists (rev w). rewrite <- rev_app_distr, <- E, rev_involutive; reflexivity.
Qed.

Lemma rstrip_keeps_no_lead (s : str) :
  no_lead s = true -> no_lead (rstrip s) = true.
Proof.
  intros H. destruct (rstrip_prefix s) as [w E].
  destruct (rstrip s) as [|c r]; [reflexivity|].
  rewrite E in H. exact H.
Qed.

Lemma strip_no_lead (s : str) :
  no_lead (strip s) = true /\ no_lead (rev (strip s)) = true.
Proof.
  unfold strip; split.
  - apply rstrip_keeps_no_lead, lstrip_no_lead.
  - unfold rstrip. rewrite rev_involutive. apply lstrip_no_lead.
Qed.

Lemma strip_fixed (s : str) :
  no_lead s = true -> no_lead (rev s) = true -> strip s = s.
Proof.
  intros H1 H2. unfold strip, rstrip.
  rewrite (lstrip_fixed _ H1), (lstrip_fixed _ H2). apply rev_involutive.
Qed.

Lemma strip_strip (s : str) : strip (strip s) = strip s.
Proof. destruct (strip_no_lead s); apply strip_fixed; assumption. Qed.

(** A str that was stripped stays as it is when a scheme is put in front. *)
Lemma strip_https (t : str) :
  no_lead (rev t) = true -> strip (lit "https://" ++ t) = lit "https://" ++ t.
Proof.
  intros H. apply strip_fixed; [reflexivity|].
  rewrite rev_app_distr. destruct t as [|c t]; [reflexivity|].
  rewrite no_lead_app; [exact H|].
  simpl. destruct (rev t); discriminate.
Qed.

Lemma startswith_app (p t : str) : startswith (p ++ t) p = true.
Proof.
  induction p as [|c p IH]; simpl; [destruct t; reflexivity|].
  rewrite N.eqb_refl; exact IH.
Qed.

(** *** Normalisation of the endpoint *)

Lemma normalize_has_scheme (raw : str) :
  startswith_any (normalize_instance_url raw) schemes = true.
Proof.
  unfold normalize_instance_url.
  destruct (startswith_any (strip raw) schemes) eqn:E; cbn [negb]; [exact E|].
  unfold startswith_any, schemes. cbn [existsb].
  rewrite (startswith_app (lit "https://")). apply orb_true_r.
Qed.

Lemma normalize_fixed (s : str) :
  no_lead s = true -> no_lead (rev s) = true ->
  startswith_any s schemes = true -> normalize_instance_url s = s.
Proof.
  intros H1 H2 H3. unfold normalize_instance_url.
  rewrite (strip_fixed _ H1 H2), H3. reflexivity.
Qed.

Lemma normalize_no_lead (raw : str) :
  no_lead (normalize_instance_url raw) = true /\
  no_lead (rev (normalize_instance_url raw)) = true.
Proof.
  unfold normalize_instance_url.
  destruct (strip_no_lead raw) as [H1 H2].
  destruct (startswith_any (strip raw) schemes); cbn [negb];
    [split; assumption|].
  split; [reflexivity|].
  rewrite <- (strip_https _ H2). apply strip_no_lead.
Qed.

(** *** Credentials *)

Lemma get_dict (kvs : list (str * json)) (k : str) :
  get (JObj kvs) k = Ok (value_at kvs k).
Proof. reflexivity. Qed.

(** [load_auth_credentials] on a dict, in one piece. *)
Lemma load_dict (kvs : list (str * json)) :
  load_auth_credentials (JObj kvs) =
  let t := py_or (value_at kvs (lit "access_token"))
                 (value_at kvs (lit "accessToken")) in
  let u := py_or (value_at kvs (lit "instance_url"))
                 (value_at kvs (lit "instanceUrl")) in
  if truthy t && truthy u
  then Ok {| access_token := t; instance_url := u |}
  else Raise (ValueError missing_credentials).
Proof.
  unfold load_auth_credentials. rewrite !get_dict. cbn [bind].
  destruct (truthy (py_or _ _)), (truthy (py_or _ _)); reflexivity.
Qed.

Lemma truthy_py_or (x y : json) :
  truthy (py_or x y) = truthy x || truthy y.
Proof. unfold py_or. destruct (truthy x) eqn:E; simpl; auto. Qed.

Lemma load_unresolved (kvs : list (str * json)) (c : concept) :
  unresolved kvs c = true ->
  load_auth_credentials (JObj kvs) = Raise (ValueError missing_credentials).
Proof.
  intros H. rewrite load_dict. cbv zeta. rewrite !truthy_py_or.
  unfold unresolved in H. apply andb_true_iff in H as [H1 H2].
  apply negb_true_iff in H1, H2.
  destruct c; cbn [aliases fst snd] in H1, H2; rewrite H1, H2;
    [reflexivity | rewrite andb_false_r; reflexivity].
Qed.

Lemma absent_or_empty_falsy (kvs : list (str * json)) (k : str) :
  absent_or_empty kvs k -> truthy (value_at kvs k) = false.
Proof. unfold value_at; intros [-> | ->]; reflexivity. Qed.

Lemma lookup_delete (k k' : str) (kvs : list (str * json)) :
  lookup k' (delete k kvs) = if PyStr.eqb k' k then None else lookup k' kvs.
Proof.
  induction kvs as [|[k0 v] kvs IH]; simpl.
  - destruct (PyStr.eqb k' k); reflexivity.
  - destruct (PyStr.eqb k k0) eqn:E; simpl.
    + apply eqb_eq in E; subst k0. rewrite IH.
      destruct (PyStr.eqb k' k); reflexivity.
    + rewrite IH. destruct (PyStr.eqb k' k0) eqn:E0; [|reflexivity].
      apply eqb_eq in E0; subst k0.
      destruct (PyStr.eqb k' k) eqn:E1; [|reflexivity].
      apply eqb_eq in E1; subst k'. rewrite eqb_refl in E; discriminate.
Qed.

Lemma resolve_dict_raise (kvs : list (str * json)) (e : exn) :
  load_auth_credentials (JObj kvs) = Raise e ->
  resolve_credentials (JObj kvs) = Raise e.
Proof. unfold resolve_credentials; intros ->; reflexivity. Qed.

(** Decides the comparisons between the key names of the source. *)
Ltac key_eqb :=
  repeat match goal with
  | |- context [PyStr.eqb (lit ?a) (lit ?b)] =>
      let v := eval vm_compute in (PyStr.eqb (lit a) (lit b)) in
      change (PyStr.eqb (lit a) (lit b)) with v
  end.

Lemma value_at_delete (k k' : str) (kvs : list (str * json)) :
  value_at (delete k kvs) k' =
  if PyStr.eqb k' k then JNull else value_at kvs k'.
Proof.
  unfold value_at. rewrite lookup_delete.
  destruct (PyStr.eqb k' k); reflexivity.
Qed.

Lemma load_delete_empty (kvs : list (str * json)) (c : concept) (k : str) :
  k = fst (aliases c) \/ k = snd (aliases c) ->
  lookup k kvs = Some (JStr []) ->
  load_auth_credentials (JObj kvs) = load_auth_credentials (JObj (delete k kvs)).
Proof.
  intros Hk H.
  assert (V : value_at kvs k = JStr []) by (unfold value_at; rewrite H; reflexivity).
  rewrite !load_dict, !value_at_delete.
  destruct c, Hk as [-> | ->]; cbn [aliases fst snd] in *; key_eqb;
    cbv iota zeta; rewrite V; unfold py_or;
    repeat (cbn [truthy andb];
            match goal with
            | E : truthy ?v = _ |- context [truthy ?v] => rewrite E
            | |- context [truthy (value_at ?a ?b)] =>
                destruct (truthy (value_at a b)) eqn:?
            end);
    reflexivity.
Qed.

(** C4.  Two blobs that bind the same token and endpoint values, one under
    the snake_case keys only and one under the camelCase keys only, resolve
    to the same thing, and to the normalised credentials when the values
    are usable; an alias bound to the empty str counts as a missing key;
    and resolution raises the credential error when some concept is
    missing or empty under both of its aliases. *)
Theorem credential_aliases_agree :
  (forall (snake camel : list (str * json)) (t u : json),
      lookup (lit "access_token") snake = Some t ->
      lookup (lit "instance_url") snake = Some u ->
      lookup (lit "accessToken") snake = None ->
      lookup (lit "instanceUrl") snake = None ->
      lookup (lit "accessToken") camel = Some t ->
      lookup (lit "instanceUrl") camel = Some u ->
      lookup (lit "access_token") camel = None ->
      lookup (lit "instance_url") camel = None ->
      resolve_credentials (JObj snake) = resolve_credentials (JObj camel) /\
      (forall raw : str,
          truthy t = true -> u = JStr raw -> raw <> [] ->
          resolve_credentials (JObj camel) =
          Ok ({| access_token := t; instance_url := u |},
              normalize_instance_url raw))) /\
  (forall (kvs : list (str * json)) (c : concept) (k : str),
      k = fst (aliases c) \/ k = snd (aliases c) ->
      lookup k kvs = Some (JStr []) ->
      resolve_credentials (JObj kvs) = resolve_credentials (JObj (delete k kvs))) /\
  (forall (kvs : list (str * json)) (c : concept),
      absent_or_empty kvs (fst (aliases c)) ->
      absent_or_empty kvs (snd (aliases c)) ->
      resolve_credentials (JObj kvs) = Raise (ValueError missing_credentials)).
Proof.
  split; [|split].
  - intros snake camel t u S1 S2 S3 S4 C1 C2 C3 C4.
    assert (E : load_auth_credentials (JObj camel) =
                if truthy t && truthy u
                then Ok {| access_token := t; instance_url := u |}
                else Raise (ValueError missing_credentials)).
    { rewrite load_dict. unfold value_at. rewrite C1, C2, C3, C4.
      unfold py_or; cbn [truthy]. reflexivity. }
    split.
    + unfold resolve_credentials. rewrite E, load_dict. unfold value_at.
      rewrite S1, S2, S3, S4. unfold py_or.
      destruct (truthy t) eqn:Ht, (truthy u) eqn:Hu; cbn [truthy andb];
        rewrite ?Ht, ?Hu; reflexivity.
    + intros raw Ht -> Hraw. unfold resolve_credentials. rewrite E, Ht.
      destruct raw; [congruence | reflexivity].
  - intros kvs c k Hk H. unfold resolve_credentials.
    rewrite (load_delete_empty kvs c Hk H). reflexivity.
  - intros kvs c H1 H2. apply resolve_dict_raise, (load_unresolved kvs c).
    unfold unresolved.
    rewrite (absent_or_empty_falsy H1), (absent_or_empty_falsy H2). reflexivity.
Qed.

(** C10.  When both aliases of a concept hold usable values, the value kept
    is the one under the snake_case key; with both concepts so bound the
    credentials are exactly the two snake_case values. *)
Theorem snake_case_wins :
  (forall (kvs : list (str * json)) (t t' : json) (c : credentials),
      lookup (lit "access_token") kvs = Some t ->
      lookup (lit "accessToken") kvs = Some t' ->
      truthy t = true -> truthy t' = true ->
      load_auth_credentials (JObj kvs) = Ok c -> access_token c = t) /\
  (forall (kvs : list (str * json)) (u u' : json) (c : credentials),
      lookup (lit "instance_url") kvs = Some u ->
      lookup (lit "instanceUrl") kvs = Some u' ->
      truthy u = true -> truthy u' = true ->
      load_auth_credentials (JObj kvs) = Ok c -> instance_url c = u) /\
  (forall (kvs : list (str * json)) (t t' u u' : json),
      lookup (lit "access_token") kvs = Some t ->
      lookup (lit "accessToken") kvs = Some t' ->
      lookup (lit "instance_url") kvs = Some u ->
      lookup (lit "instanceUrl") kvs = Some u' ->
      truthy t = true -> truthy t' = true ->
      truthy u = true -> truthy u' = true ->
      load_auth_credentials (JObj kvs) =
      Ok {| access_token := t; instance_url := u |}).
Proof.
  split; [|split].
  - intros kvs t t' c H1 H2 Ht Ht'. rewrite load_dict. unfold value_at.
    rewrite H1, H2. cbv zeta.
    assert (P : py_or t t' = t) by (unfold py_or; rewrite Ht; reflexivity).
    rewrite P, Ht.
    match goal with
    | |- context [truthy (py_or ?a ?b)] => destruct (truthy (py_or a b))
    end; cbn [andb]; [|discriminate].
    intros E; inversion E; reflexivity.
  - intros kvs u u' c H1 H2 Hu Hu'. rewrite load_dict. unfold value_at.
    rewrite H1, H2. cbv zeta.
    assert (P : py_or u u' = u) by (unfold py_or; rewrite Hu; reflexivity).
    rewrite P, Hu, andb_true_r.
    match goal with
    | |- context [truthy (py_or ?a ?b)] => destruct (truthy (py_or a b))
    end; [|discriminate].
    intros E; inversion E; reflexivity.
  - intros kvs t t' u u' H1 H2 H3 H4 Ht Ht' Hu Hu'.
    rewrite load_dict. unfold value_at. rewrite H1, H2, H3, H4. cbv zeta.
    assert (P : py_or t t' = t) by (unfold py_or; rewrite Ht; reflexivity).
    assert (Q : py_or u u' = u) by (unfold py_or; rewrite Hu; reflexivity).
    rewrite P, Q, Ht, Hu. reflexivity.
Qed.

(** C9, as the code has it.  For blobs that are JSON objects: whichever
    concept is unresolved, and in whichever object, the error raised is the
    same [ValueError] with the same fixed message: it does not name a
    field. *)
Theorem credential_error_is_generic :
  forall (kvs1 kvs2 : list (str * json)) (c1 c2 : concept),
    unresolved kvs1 c1 = true ->
    unresolved kvs2 c2 = true ->
    load_auth_credentials (JObj kvs1) = Raise (ValueError missing_credentials) /\
    load_auth_credentials (JObj kvs2) = load_auth_credentials (JObj kvs1).
Proof.
  intros kvs1 kvs2 c1 c2 H1 H2.
  rewrite (load_unresolved kvs1 c1 H1), (load_unresolved kvs2 c2 H2).
  split; reflexivity.
Qed.

(** C9, as the claim states it, fails: a blob with only a token and a blob
    with only an endpoint raise the same exception, so nothing read off the
    exception can tell the two missing fields apart. *)
Lemma error_does_not_name_field : ~ reports_offending_field.
Proof.
  intros [offending H].
  destruct (H [(lit "instance_url", JStr (lit "https://example.my.salesforce.com"))]
              Token eq_refl eq_refl) as [e1 [E1 O1]].
  destruct (H [(lit "access_token", JStr (lit "tok1"))]
              Endpoint eq_refl eq_refl) as [e2 [E2 O2]].
  vm_compute in E1, E2. inversion E1; inversion E2; subst.
  rewrite O1 in O2; discriminate.
Qed.

Lemma lstrip_blanks (s : str) :
  exists w, s = w ++ lstrip s /\ forallb isspace w = true.
Proof.
  induction s as [|c s [w [IH B]]]; simpl.
  - exists []; split; reflexivity.
  - destruct (isspace c) eqn:E.
    + exists (c :: w); simpl. rewrite E, B. split; [congruence | reflexivity].
    + exists []; split; reflexivity.
Qed.

Lemma forallb_rev (f : N -> bool) (l : list N) :
  forallb f l = true -> forallb f (rev l) = true.
Proof.
  rewrite !forallb_forall. intros H x Hx. apply H, in_rev, Hx.
Qed.

(** What [strip] does: it takes whitespace, and nothing else, off both
    ends, until neither end is whitespace. *)
Lemma strip_blanks (s : str) :
  exists lead trail,
    s = lead ++ strip s ++ trail /\
    forallb isspace lead = true /\
    forallb isspace trail = true.
Proof.
  destruct (lstrip_blanks s) as [lead [E1 B1]].
  destruct (lstrip_blanks (rev (lstrip s))) as [w [E2 B2]].
  exists lead, (rev w). split; [|split; [exact B1 | exact (forallb_rev _ _ B2)]].
  unfold strip, rstrip. rewrite <- rev_app_distr, <- E2, rev_involutive.
  exact E1.
Qed.

(** C5.  Normalisation first strips the endpoint: what is taken off each
    end is whitespace and what is left has whitespace at neither end.  It
    then puts [https://] in front unless the stripped str already begins
    with [http://] or [https://], in which case the stripped str is the
    result.  Normalising twice is normalising once.  The blob of the
    scenario resolves to the token [tok1] with the base URL
    [https://my-org.my.salesforce.com], and an endpoint written with a
    scheme between a tab, a blank and a line end comes out bare. *)
Theorem normalize_instance_url_idempotent :
  (forall raw : str,
      (exists lead trail,
          raw = lead ++ strip raw ++ trail /\
          forallb isspace lead = true /\
          forallb isspace trail = true /\
          no_lead (strip raw) = true /\
          no_lead (rev (strip raw)) = true) /\
      normalize_instance_url raw =
        (if startswith (strip raw) (lit "http://") ||
            startswith (strip raw) (lit "https://")
         then strip raw
         else lit "https://" ++ strip raw) /\
      normalize_instance_url (normalize_instance_url raw) =
        normalize_instance_url raw) /\
  resolve_credentials
    (JObj [(lit "accessToken", JStr (lit "tok1"));
           (lit "instanceUrl", JStr (lit "my-org.my.salesforce.com"))]) =
  Ok ({| access_token := JStr (lit "tok1");
         instance_url := JStr (lit "my-org.my.salesforce.com") |},
      lit "https://my-org.my.salesforce.com") /\
  normalize_instance_url
    ([9; 32]%N ++ lit "http://localhost:8080" ++ [13; 10]%N) =
  lit "http://localhost:8080" /\
  normalize_instance_url (lit "  my-org.my.salesforce.com ") =
  lit "https://my-org.my.salesforce.com".
Proof.
  split; [intros raw; split; [|split]
         | split; [|split]; vm_compute; reflexivity].
  - destruct (strip_blanks raw) as [lead [trail [E [B1 B2]]]].
    destruct (strip_no_lead raw) as [N1 N2].
    exists lead, trail. repeat split; assumption.
  - unfold normalize_instance_url, startswith_any, schemes. cbn [existsb].
    rewrite orb_false_r.
    destruct (startswith (strip raw) (lit "http://") ||
              startswith (strip raw) (lit "https://")); reflexivity.
  - destruct (normalize_no_lead raw) as [H1 H2].
    apply normalize_fixed; [exact H1 | exact H2 | apply normalize_has_scheme].
Qed.

(** *** The pagination loop *)

Arguments lit : simpl never.
Arguments of_int : simpl never.

Section Loop.

Variable headers : list (str * str).
Variable base : str.

Lemma fetch_loop_stops (all_pages : bool) (script : list reply)
    (full_url : json) (all_records : list json) (last : json)
    (sent0 : list request) :
  truthy full_url = false ->
  fetch_loop headers base all_pages script full_url all_records (Some last) sent0 =
  {| outcome := Returned (Some all_records) (Some last);
     sent := sent0; shown := [] |}.
Proof. intros H. destruct script; simpl; rewrite H; reflexivity. Qed.

Lemma page_items_inv (r : response) (items : list json) :
  page_items r = Some items ->
  (status_code r =? 200)%Z = true /\
  exists kvs, json_body r = Some (JObj kvs) /\
              lookup (lit "records") kvs = Some (JArr items).
Proof.
  unfold page_items. destruct (status_code r =? 200)%Z; [|discriminate].
  destruct (json_body r) as [[| | | | | |kvs]|]; try discriminate.
  destruct (lookup (lit "records") kvs) as [[| | | | |l|]|] eqn:E;
    try discriminate.
  intros H; inversion H; subst. split; [reflexivity|].
  exists kvs; split; [reflexivity | exact E].
Qed.

(** A failing status ends the loop at once. *)
Lemma fetch_loop_bad_status (all_pages : bool) (r : response)
    (script : list reply) (url : str) (all_records : list json)
    (last : option json) (sent0 : list request) :
  nonempty url = true ->
  (status_code r =? 200)%Z = false ->
  fetch_loop headers base all_pages (Responds r :: script) (JStr url)
             all_records last sent0 =
  {| outcome := Returned None None;
     sent := sent0 ++ [request_of headers url];
     shown := [st_error (failed_to_fetch r)] |}.
Proof.
  intros Hu Hs. destruct url as [|c url]; [discriminate|].
  simpl. rewrite Hs. reflexivity.
Qed.

(** One page, when only the first page is asked for. *)
Lemma fetch_loop_single (r : response) (items : list json)
    (script : list reply) (url : str) (all_records : list json)
    (last : option json) (sent0 : list request) :
  nonempty url = true ->
  page_items r = Some items ->
  fetch_loop headers base false (Responds r :: script) (JStr url)
             all_records last sent0 =
  {| outcome := Returned (Some (all_records ++ items)) (json_body r);
     sent := sent0 ++ [request_of headers url];
     shown := [] |}.
Proof.
  intros Hu Hp. destruct url as [|c url]; [discriminate|].
  apply page_items_inv in Hp as [Hs [kvs [Hb Hr]]].
  simpl. rewrite Hs, Hb. simpl. rewrite Hr. reflexivity.
Qed.

(** One page that carries a continuation, when all pages are asked for. *)
Lemma fetch_loop_continue (r : response) (script : list reply) (url : str)
    (all_records : list json) (last : option json) (sent0 : list request) :
  nonempty url = true ->
  continues base r = true ->
  fetch_loop headers base true (Responds r :: script) (JStr url)
             all_records last sent0 =
  fetch_loop headers base true script (JStr (next_url base url r))
             (all_records ++ items_of [r]) (json_body r)
             (sent0 ++ [request_of headers url]) /\
  nonempty (next_url base url r) = true.
Proof.
  intros Hu Hc. destruct url as [|c url]; [discriminate|].
  unfold continues in Hc. unfold items_of, next_url. cbn [flat_map].
  destruct (page_items r) as [items|] eqn:Hp; [|discriminate].
  destruct (continuation r) as [u|] eqn:Hn; [|discriminate].
  rewrite app_nil_r. split; [|exact Hc].
  apply page_items_inv in Hp as [Hs [kvs [Hb Hr]]].
  unfold continuation in Hn. rewrite Hb in Hn.
  destruct (lookup (lit "nextRecordsUrl") kvs) as [[| | | |[|d v]| |]|] eqn:E;
    try discriminate.
  inversion Hn; subst u.
  destruct (urljoin base (d :: v)) as [w|e] eqn:J; [|discriminate Hc].
  simpl. rewrite Hs, Hb. simpl. rewrite Hr, E. simpl. rewrite J. reflexivity.
Qed.

(** The page that omits the continuation, when all pages are asked for. *)
Lemma fetch_loop_final (r : response) (script : list reply) (url : str)
    (all_records : list json) (last : option json) (sent0 : list request) :
  nonempty url = true ->
  final_page r = true ->
  fetch_loop headers base true (Responds r :: script) (JStr url)
             all_records last sent0 =
  {| outcome := Returned (Some (all_records ++ items_of [r])) (json_body r);
     sent := sent0 ++ [request_of headers url];
     shown := [] |}.
Proof.
  intros Hu Hf. destruct url as [|c url]; [discriminate|].
  unfold final_page in Hf. unfold items_of. cbn [flat_map].
  destruct (page_items r) as [items|] eqn:Hp; [|discriminate].
  rewrite app_nil_r.
  apply page_items_inv in Hp as [Hs [kvs [Hb Hr]]].
  unfold omits_continuation in Hf. rewrite Hb in Hf.
  destruct (lookup (lit "nextRecordsUrl") kvs) eqn:E; [discriminate|].
  simpl. rewrite Hs, Hb. simpl. rewrite Hr, E. simpl.
  rewrite fetch_loop_stops by reflexivity. reflexivity.
Qed.

Lemma items_of_cons (r : response) (rs : list response) :
  items_of (r :: rs) = items_of [r] ++ items_of rs.
Proof. unfold items_of; simpl. rewrite app_nil_r; reflexivity. Qed.

Lemma items_of_app (rs rs' : list response) :
  items_of (rs ++ rs') = items_of rs ++ items_of rs'.
Proof. apply flat_map_app. Qed.

(** A run of pages that all carry a continuation: the loop takes them one
    by one and goes on with the rest of the script. *)
Lemma fetch_loop_pages (rs : list response) :
  forall (script : list reply) (url : str) (all_records : list json)
         (last : option json) (sent0 : list request),
    nonempty url = true ->
    forallb (continues base) rs = true ->
    fetch_loop headers base true (map Responds rs ++ script) (JStr url)
               all_records last sent0 =
    fetch_loop headers base true script (JStr (follow base url rs))
               (all_records ++ items_of rs) (last_body last rs)
               (sent0 ++ map (request_of headers) (visited base url rs)) /\
    nonempty (follow base url rs) = true.
Proof.
  induction rs as [|r rs IH]; intros script url acc last sent0 Hu Hc.
  - simpl. unfold items_of; simpl. rewrite !app_nil_r. split; [reflexivity | exact Hu].
  - simpl in Hc. apply andb_true_iff in Hc as [Hr Hrs].
    destruct (@fetch_loop_continue r (map Responds rs ++ script) url acc last
                sent0 Hu Hr) as [E Hn].
    destruct (IH script (next_url base url r) (acc ++ items_of [r]) (json_body r)
                 (sent0 ++ [request_of headers url]) Hn Hrs) as [E' Hn'].
    cbn [map app visited follow]. rewrite E, E'.
    rewrite (items_of_cons r rs), <- !app_assoc. split; [reflexivity | exact Hn'].
Qed.

Lemma visited_length (url : str) (rs : list response) :
  List.length (visited base url rs) = List.length rs.
Proof. revert url; induction rs; intros; simpl; auto. Qed.

Lemma visited_app (url : str) (rs rs' : list response) :
  visited base url (rs ++ rs') =
  visited base url rs ++ visited base (follow base url rs) rs'.
Proof.
  revert url; induction rs as [|r rs IH]; intros; simpl; [reflexivity|].
  rewrite IH; reflexivity.
Qed.

End Loop.

(** C1.  With all pages asked for, a script of pages that each carry a
    continuation reference, followed by a page that omits it, is consumed
    with one request per page, and the records returned are the record
    lists of the pages put end to end, in page order; the two pages of the
    scenario give [r1; r2; r3] with two requests. *)
Theorem fetch_all_pages_concatenates :
  (forall (headers : list (str * str)) (base full_url : str)
          (init : list response) (fin : response) (rest : list reply),
      nonempty full_url = true ->
      forallb (continues base) init = true ->
      final_page fin = true ->
      let pages := init ++ [fin] in
      let run := fetch_data (map Responds pages ++ rest)
                            full_url headers base true in
      outcome run = Returned (Some (items_of pages)) (json_body fin) /\
      sent run = map (request_of headers) (visited base full_url pages) /\
      List.length (sent run) = List.length pages /\
      shown run = []) /\
  (forall (headers : list (str * str)) (base full_url t1 t2 : str)
          (r1 r2 r3 : json) (rest : list reply),
      nonempty full_url = true ->
      nonempty (joined (urljoin base (lit "/query/01g-500"))) = true ->
      let page1 :=
        {| status_code := 200; text := t1;
           json_body := Some (JObj [(lit "records", JArr [r1; r2]);
                                    (lit "nextRecordsUrl",
                                     JStr (lit "/query/01g-500"))]) |} in
      let page2 :=
        {| status_code := 200; text := t2;
           json_body := Some (JObj [(lit "records", JArr [r3])]) |} in
      let run := fetch_data (Responds page1 :: Responds page2 :: rest)
                            full_url headers base true in
      outcome run = Returned (Some [r1; r2; r3]) (json_body page2) /\
      sent run = [request_of headers full_url;
                  request_of headers
                    (joined (urljoin base (lit "/query/01g-500")))]).
Proof.
  assert (G : forall (headers : list (str * str)) (base full_url : str)
          (init : list response) (fin : response) (rest : list reply),
      nonempty full_url = true ->
      forallb (continues base) init = true ->
      final_page fin = true ->
      fetch_data (map Responds (init ++ [fin]) ++ rest) full_url headers base true =
      {| outcome := Returned (Some (items_of (init ++ [fin]))) (json_body fin);
         sent := map (request_of headers) (visited base full_url (init ++ [fin]));
         shown := [] |}).
  { intros headers base full_url init fin rest Hu Hc Hf. unfold fetch_data.
    rewrite map_app, <- app_assoc.
    destruct (@fetch_loop_pages headers base init (map Responds [fin] ++ rest)
                full_url [] None [] Hu Hc) as [E Hn].
    rewrite E. cbn [map app].
    rewrite (@fetch_loop_final headers base fin rest _ _ _ _ Hn Hf).
    rewrite items_of_app, visited_app, map_app. reflexivity. }
  split.
  - intros headers base full_url init fin rest Hu Hc Hf pages run.
    subst run pages. rewrite (G headers base full_url init fin rest Hu Hc Hf).
    cbn [outcome sent shown]. repeat split.
    rewrite length_map, visited_length; reflexivity.
  - intros headers base full_url t1 t2 r1 r2 r3 rest Hu Hj page1 page2 run.
    assert (Hc : forallb (continues base) [page1] = true).
    { cbn [forallb]. rewrite andb_true_r. exact Hj. }
    subst run.
    change (Responds page1 :: Responds page2 :: rest)
      with (map Responds ([page1] ++ [page2]) ++ rest).
    rewrite (G headers base full_url [page1] page2 rest Hu Hc eq_refl).
    split; reflexivity.
Qed.

(** Takes apart the next [match] or [if] of the goal. *)
Ltac case_step :=
  match goal with
  | |- context [match ?x with _ => _ end] =>
      lazymatch x with
      | context [match _ with _ => _ end] => fail
      | context [fetch_loop] => fail
      | _ => destruct x eqn:?
      end
  | |- context [match bind ?m ?f with _ => _ end] => destruct (bind m f) eqn:?
  end.

(** With one page asked for, whatever the reply, one request is made. *)
Lemma fetch_loop_single_request (headers : list (str * str)) (base : str)
    (rep : reply) (rest : list reply) (url : str) (all_records : list json)
    (last : option json) (sent0 : list request) :
  nonempty url = true ->
  sent (fetch_loop headers base false (rep :: rest) (JStr url)
                   all_records last sent0) =
  sent0 ++ [request_of headers url].
Proof.
  intros Hu. destruct url as [|c url]; [discriminate|].
  simpl. repeat case_step; reflexivity.
Qed.

(** The requests made so far stay, and a truthy URL is requested next. *)
Lemma fetch_loop_sent (headers : list (str * str)) (base : str)
    (all_pages : bool) (script : list reply) :
  forall (full_url : json) (all_records : list json) (last : option json)
         (sent0 : list request),
    exists more,
      sent (fetch_loop headers base all_pages script full_url
                       all_records last sent0) = sent0 ++ more /\
      (more = [] \/
       exists more', more = {| req_url := full_url; req_headers := headers |}
                            :: more').
Proof.
  induction script as [|rep script IH]; intros full_url acc last sent0.
  - simpl. destruct (truthy full_url); simpl.
    + eexists; split; [reflexivity | right; eexists; reflexivity].
    + exists []; rewrite app_nil_r; auto.
  - simpl. destruct (truthy full_url); simpl;
      [|exists []; rewrite app_nil_r; auto].
    repeat case_step; simpl;
      try (eexists; split; [reflexivity | right; eexists; reflexivity]).
    match goal with
    | |- context [fetch_loop _ _ _ _ ?u ?a ?l ?s] =>
        destruct (IH u a l s) as [more [E _]]
    end.
    rewrite E, <- app_assoc.
    eexists; split; [reflexivity | right; eexists; reflexivity].
Qed.

(** Something is shown by [fetch_data] exactly when it returns
    [None, None], and then it is the error of a failed response. *)
Lemma fetch_loop_shown (headers : list (str * str)) (base : str)
    (all_pages : bool) (script : list reply) :
  forall (full_url : json) (all_records : list json) (last : option json)
         (sent0 : list request),
    let run := fetch_loop headers base all_pages script full_url
                          all_records last sent0 in
    match outcome run with
    | Returned None _ => exists r, shown run = [st_error (failed_to_fetch r)]
    | _ => shown run = []
    end.
Proof.
  induction script as [|rep script IH]; intros full_url acc last sent0.
  - simpl. destruct (truthy full_url); simpl; [reflexivity|].
    destruct last; reflexivity.
  - simpl. destruct (truthy full_url); simpl;
      [|destruct last; reflexivity].
    repeat (case_step; cbn [outcome shown sent]);
      try reflexivity; try (eexists; reflexivity); try discriminate.
    apply IH.
Qed.

(** C2.  With one page asked for, exactly one request is made whatever the
    server replies, and a successful reply gives back the records of that
    page alone, whether or not it carries a continuation reference. *)
Theorem fetch_first_page_only :
  forall (headers : list (str * str)) (base full_url : str)
         (rep : reply) (rest : list reply),
    nonempty full_url = true ->
    let run := fetch_data (rep :: rest) full_url headers base false in
    sent run = [request_of headers full_url] /\
    (forall (r : response) (items : list json),
        rep = Responds r -> page_items r = Some items ->
        outcome run = Returned (Some items) (json_body r) /\ shown run = []).
Proof.
  intros headers base full_url rep rest Hu run. subst run. unfold fetch_data.
  split.
  - rewrite fetch_loop_single_request by exact Hu. reflexivity.
  - intros r items -> Hp.
    rewrite (@fetch_loop_single headers base r items rest full_url [] None []
               Hu Hp).
    split; reflexivity.
Qed.

Lemma try_fetch_requests (script : list reply) (url : str)
    (headers : list (str * str)) (base : str) (all_pages : bool) :
  requests_made (try_fetch script url headers base all_pages) =
  sent (fetch_data script url headers base all_pages).
Proof. unfold try_fetch. cbv zeta. destruct (outcome _); reflexivity. Qed.

(** When [urljoin] has formed a URL, the query runs inside the [try]. *)
Lemma execute_query_formed (script : list reply) (creds : credentials)
    (base q api : str) (tooling all_pages : bool) :
  q <> [] ->
  nonempty (joined (form_full_url base api tooling q)) = true ->
  execute_query script creds base q api tooling all_pages =
  try_fetch script (joined (form_full_url base api tooling q))
            (make_headers creds) base all_pages.
Proof.
  intros Hq Hu. destruct q as [|c q]; [congruence|].
  unfold execute_query.
  destruct (form_full_url base api tooling (c :: q)) as [u|e];
    [reflexivity | discriminate Hu].
Qed.

(** A failed response after pages that all carry a continuation. *)
Lemma fetch_data_failed (headers : list (str * str)) (base full_url : str)
    (all_pages : bool) (init : list response) (bad : response)
    (rest : list reply) :
  nonempty full_url = true ->
  all_pages = true \/ init = [] ->
  forallb (continues base) init = true ->
  (status_code bad =? 200)%Z = false ->
  fetch_data (map Responds init ++ Responds bad :: rest)
             full_url headers base all_pages =
  {| outcome := Returned None None;
     sent := map (request_of headers) (visited base full_url init) ++
             [request_of headers (follow base full_url init)];
     shown := [st_error (failed_to_fetch bad)] |}.
Proof.
  intros Hu [-> | ->] Hc Hs; unfold fetch_data.
  - destruct (@fetch_loop_pages headers base init (Responds bad :: rest)
                full_url [] None [] Hu Hc) as [E Hn].
    rewrite E. rewrite fetch_loop_bad_status by assumption. reflexivity.
  - cbn [map app visited follow].
    rewrite fetch_loop_bad_status by assumption. reflexivity.
Qed.

(** C3.  A response whose status is not 200, at the first request or after
    any number of pages that were fetched and continued, ends the loop
    there: [fetch_data] returns no records, the one thing shown is the error
    with the status code and the body, and [main] then shows no table and
    offers no CSV.  The 403 of the scenario shows
    [Failed to fetch data: 403] followed by the body. *)
Theorem failed_page_discards_everything :
  (forall (headers : list (str * str)) (base full_url : str)
          (all_pages : bool) (init : list response) (bad : response)
          (rest : list reply),
      nonempty full_url = true ->
      all_pages = true \/ init = [] ->
      forallb (continues base) init = true ->
      (status_code bad =? 200)%Z = false ->
      let run := fetch_data (map Responds init ++ Responds bad :: rest)
                            full_url headers base all_pages in
      outcome run = Returned None None /\
      shown run = [st_error (lit "Failed to fetch data: " ++
                             of_int (status_code bad) ++ lit " " ++ text bad)] /\
      List.length (sent run) = S (List.length init)) /\
  (forall (auth_credentials : credentials)
          (base soql_query api_version : str) (use_tooling_api all_pages : bool)
          (init : list response) (bad : response) (rest : list reply),
      soql_query <> [] ->
      nonempty (joined (form_full_url base api_version use_tooling_api
                                    soql_query)) = true ->
      all_pages = true \/ init = [] ->
      forallb (continues base) init = true ->
      (status_code bad =? 200)%Z = false ->
      let m := execute_query (map Responds init ++ Responds bad :: rest)
                             auth_credentials base soql_query api_version
                             use_tooling_api all_pages in
      ended m = Finished /\
      page m = [st_error (failed_to_fetch bad)] /\
      (forall df, ~ In (st_dataframe df) (page m)) /\
      (forall data, ~ In (st_download_button data) (page m)) /\
      List.length (requests_made m) = S (List.length init)) /\
  (forall (auth_credentials : credentials)
          (base soql_query api_version : str) (use_tooling_api all_pages : bool)
          (body : option json) (rest : list reply),
      soql_query <> [] ->
      nonempty (joined (form_full_url base api_version use_tooling_api
                                    soql_query)) = true ->
      let bad := {| status_code := 403; text := expired_body;
                    json_body := body |} in
      let m := execute_query (Responds bad :: rest)
                             auth_credentials base soql_query api_version
                             use_tooling_api all_pages in
      page m = [st_error (lit "Failed to fetch data: 403 " ++ expired_body)] /\
      List.length (requests_made m) = 1).
Proof.
  assert (M : forall (auth_credentials : credentials)
          (base soql_query api_version : str) (use_tooling_api all_pages : bool)
          (init : list response) (bad : response) (rest : list reply),
      soql_query <> [] ->
      nonempty (joined (form_full_url base api_version use_tooling_api
                                    soql_query)) = true ->
      all_pages = true \/ init = [] ->
      forallb (continues base) init = true ->
      (status_code bad =? 200)%Z = false ->
      execute_query (map Responds init ++ Responds bad :: rest)
                    auth_credentials base soql_query api_version
                    use_tooling_api all_pages =
      {| ended := Finished;
         requests_made :=
           map (request_of (make_headers auth_credentials))
               (visited base
                  (joined (form_full_url base api_version use_tooling_api
                                         soql_query)) init) ++
           [request_of (make_headers auth_credentials)
              (follow base
                 (joined (form_full_url base api_version use_tooling_api
                                        soql_query)) init)];
         page := [st_error (failed_to_fetch bad)] |}).
  { intros creds base q api tooling all_pages init bad rest Hq Hu Ha Hc Hs.
    rewrite execute_query_formed by assumption. unfold try_fetch.
    rewrite (fetch_data_failed _ _ _ _ _ Hu Ha Hc Hs). reflexivity. }
  split; [|split].
  - intros headers base full_url all_pages init bad rest Hu Ha Hc Hs run.
    subst run. rewrite (fetch_data_failed _ _ _ _ _ Hu Ha Hc Hs).
    cbn [outcome shown sent]. repeat split.
    rewrite length_app, length_map, visited_length. simpl. lia.
  - intros creds base q api tooling all_pages init bad rest Hq Hu Ha Hc Hs m.
    subst m. rewrite (M creds base q api tooling all_pages init bad rest Hq Hu Ha Hc Hs).
    cbn [ended page requests_made]. repeat split.
    + intros df [H|[]]; discriminate.
    + intros d [H|[]]; discriminate.
    + rewrite length_app, length_map, visited_length. simpl. lia.
  - intros creds base q api tooling all_pages body rest Hq Hu bad m.
    subst m.
    change (Responds bad :: rest) with (map Responds [] ++ Responds bad :: rest).
    destruct all_pages;
      (rewrite M; [|assumption|assumption|auto|reflexivity|reflexivity]);
      split; reflexivity.
Qed.

(** C6.  The URL [main] forms is the path of the chosen surface for the
    given API version, followed by [?q=] and the query text exactly as it
    was typed, resolved against the base URL by [urljoin]; when a request
    is made, [urljoin] returned that URL and it is the URL of the first
    request, sent with the headers built from the credentials. *)
Theorem request_url_is_literal :
  forall (base api_version soql_query : str) (use_tooling_api : bool),
    form_full_url base api_version use_tooling_api soql_query =
      spec_request_url base api_version soql_query use_tooling_api /\
    (forall (script : list reply) (auth_credentials : credentials)
            (all_pages : bool) (r : request),
        hd_error (requests_made
                    (execute_query script auth_credentials base soql_query
                                   api_version use_tooling_api all_pages)) =
          Some r ->
        exists full_url,
          spec_request_url base api_version soql_query use_tooling_api =
            Ok full_url /\
          r = request_of (make_headers auth_credentials) full_url).
Proof.
  intros base api q tooling.
  assert (E : form_full_url base api tooling q =
              spec_request_url base api q tooling).
  { unfold form_full_url, spec_request_url, endpoint_path.
    destruct tooling; rewrite <- !app_assoc; reflexivity. }
  split; [exact E|].
  intros script creds all_pages r. rewrite <- E.
  destruct q as [|c q]; [discriminate|].
  unfold execute_query.
  destruct (form_full_url base api tooling (c :: q)) as [u|e];
    [|discriminate].
  rewrite try_fetch_requests. unfold fetch_data.
  destruct (fetch_loop_sent (make_headers creds) base all_pages script
              (JStr u) [] None []) as [more [S H]].
  rewrite S; cbn [app].
  destruct H as [-> | [more' ->]]; [discriminate|].
  intros H; inversion H. exists u. split; reflexivity.
Qed.

(** C8.  A run that fetched without failure and gathered no record shows
    the warning that no data was found, and only that; a run whose fetch
    failed, by a refused response or by an exception, shows an error
    instead; and a credential error, or an exception of [urljoin] while the
    URL is formed, leaves [main] before anything is shown.  The warning is
    none of these. *)
Theorem no_data_is_not_an_error :
  (forall (script : list reply) (auth_credentials : credentials)
          (base soql_query api_version : str)
          (use_tooling_api all_pages : bool) (full_url : str),
      soql_query <> [] ->
      form_full_url base api_version use_tooling_api soql_query =
        Ok full_url ->
      let run := fetch_data script full_url (make_headers auth_credentials)
                            base all_pages in
      let m := execute_query script auth_credentials base soql_query
                             api_version use_tooling_api all_pages in
      (forall last, outcome run = Returned (Some []) last ->
                    ended m = Finished /\ page m = no_data_page) /\
      (forall last, outcome run = Returned None last ->
                    (exists r, page m = [st_error (failed_to_fetch r)]) /\
                    page m <> no_data_page) /\
      (forall e, outcome run = Raised e ->
                 page m = [st_error (lit "An error occurred: " ++ exn_text e)] /\
                 page m <> no_data_page)) /\
  (forall (script : list reply) (auth_credentials : credentials)
          (base soql_query api_version : str)
          (use_tooling_api all_pages : bool) (e : exn),
      soql_query <> [] ->
      form_full_url base api_version use_tooling_api soql_query = Raise e ->
      let m := execute_query script auth_credentials base soql_query
                             api_version use_tooling_api all_pages in
      ended m = Uncaught e /\ page m = [] /\ page m <> no_data_page) /\
  (forall (script : list reply) (auth_data : json)
          (soql_query api_version : str) (use_tooling_api all_pages : bool)
          (e : exn),
      resolve_credentials auth_data = Raise e ->
      let m := main script auth_data soql_query api_version
                    use_tooling_api all_pages in
      ended m = Uncaught e /\ page m = [] /\ page m <> no_data_page) /\
  (forall msg, ~ In (st_error msg) no_data_page).
Proof.
  split; [|split; [|split]].
  - intros script creds base q api tooling all_pages full_url Hq Hf run m.
    destruct q as [|c q]; [congruence|].
    pose proof (fetch_loop_shown (make_headers creds) base all_pages script
                  (JStr full_url) [] None []) as S.
    cbv zeta in S. fold (fetch_data script full_url (make_headers creds)
                                    base all_pages) in S. fold run in S.
    subst m. unfold execute_query. rewrite Hf. unfold try_fetch.
    cbv zeta. fold run.
    split; [|split].
    + intros last H. rewrite H in *. rewrite S. split; reflexivity.
    + intros last H. rewrite H in *. destruct S as [r S]. rewrite S.
      split; [exists r; reflexivity | discriminate].
    + intros e H. rewrite H in *. rewrite S. split; [reflexivity | discriminate].
  - intros script creds base q api tooling all_pages e Hq Hf m. subst m.
    destruct q as [|c q]; [congruence|].
    unfold execute_query. rewrite Hf. repeat split. discriminate.
  - intros script auth_data q api tooling all_pages e H m. subst m.
    unfold main. rewrite H. repeat split. discriminate.
  - intros msg [H|[]]. discriminate.
Qed.

(* ------------------------------------------------------------------ *)
(** ** Further properties of the credentials *)

(** X1.  [load_auth_credentials] returns exactly when the blob is a dict in
    which each concept has a truthy value under one of its two keys. *)
Theorem load_auth_credentials_succeeds_iff :
  forall auth_data : json,
    (exists c, load_auth_credentials auth_data = Ok c) <->
    (exists kvs, auth_data = JObj kvs /\
                 unresolved kvs Token = false /\
                 unresolved kvs Endpoint = false).
Proof.
  intros auth_data. split.
  - intros [c H]. destruct auth_data as [| | | | | |kvs]; try discriminate.
    exists kvs. split; [reflexivity|].
    destruct (unresolved kvs Token) eqn:ET.
    { rewrite (load_unresolved kvs Token ET) in H; discriminate. }
    destruct (unresolved kvs Endpoint) eqn:EE.
    { rewrite (load_unresolved kvs Endpoint EE) in H; discriminate. }
    split; reflexivity.
  - intros [kvs [-> [HT HE]]]. rewrite load_dict. cbv zeta.
    rewrite !truthy_py_or. unfold unresolved in HT, HE.
    cbn [aliases fst snd] in HT, HE.
    rewrite <- negb_orb, negb_false_iff in HT, HE. rewrite HT, HE.
    eexists; reflexivity.
Qed.

Lemma load_ok_inv (auth_data : json) (c : credentials) :
  load_auth_credentials auth_data = Ok c ->
  truthy (access_token c) = true /\
  truthy (instance_url c) = true /\
  exists kvs,
    auth_data = JObj kvs /\
    (access_token c = value_at kvs (lit "access_token") \/
     access_token c = value_at kvs (lit "accessToken")) /\
    (instance_url c = value_at kvs (lit "instance_url") \/
     instance_url c = value_at kvs (lit "instanceUrl")).
Proof.
  intros H.
  destruct auth_data as [| | | | | |kvs]; try discriminate.
  rewrite load_dict in H. cbv zeta in H.
  destruct (truthy (py_or (value_at kvs (lit "access_token"))
                          (value_at kvs (lit "accessToken")))) eqn:ET;
    [|discriminate].
  destruct (truthy (py_or (value_at kvs (lit "instance_url"))
                          (value_at kvs (lit "instanceUrl")))) eqn:EE;
    [|discriminate].
  cbn [andb] in H. inversion H; subst c; clear H. cbn [access_token instance_url].
  split; [exact ET | split; [exact EE|]].
  exists kvs. split; [reflexivity|]. unfold py_or.
  split.
  - destruct (truthy (value_at kvs (lit "access_token"))); auto.
  - destruct (truthy (value_at kvs (lit "instance_url"))); auto.
Qed.

(** X2.  The credentials [load_auth_credentials] returns never hold a falsy
    token or endpoint, and each of the two is the value the blob has under
    one of the keys of its concept. *)
Theorem loaded_credentials_are_truthy :
  forall (auth_data : json) (c : credentials),
    load_auth_credentials auth_data = Ok c ->
    truthy (access_token c) = true /\
    truthy (instance_url c) = true /\
    exists kvs,
      auth_data = JObj kvs /\
      (access_token c = value_at kvs (lit "access_token") \/
       access_token c = value_at kvs (lit "accessToken")) /\
      (instance_url c = value_at kvs (lit "instance_url") \/
       instance_url c = value_at kvs (lit "instanceUrl")).
Proof. intros auth_data c. apply load_ok_inv. Qed.

(** X3.  Only the four credential keys are read: two blobs that agree on
    them give the same result, whatever else they hold and in whatever
    order. *)
Theorem load_reads_only_the_aliases :
  forall kvs kvs' : list (str * json),
    (forall c : concept,
        value_at kvs (fst (aliases c)) = value_at kvs' (fst (aliases c)) /\
        value_at kvs (snd (aliases c)) = value_at kvs' (snd (aliases c))) ->
    load_auth_credentials (JObj kvs) = load_auth_credentials (JObj kvs').
Proof.
  intros kvs kvs' H. rewrite !load_dict.
  destruct (H Token) as [T1 T2]. destruct (H Endpoint) as [E1 E2].
  cbn [aliases fst snd] in T1, T2, E1, E2. rewrite T1, T2, E1, E2.
  reflexivity.
Qed.

(** X4.  Any falsy value under a credential key ([null], [false], [0], an
    empty str, list or dict) counts as a missing key. *)
Theorem falsy_alias_counts_as_missing :
  forall (kvs : list (str * json)) (c : concept) (k : str),
    k = fst (aliases c) \/ k = snd (aliases c) ->
    truthy (value_at kvs k) = false ->
    load_auth_credentials (JObj kvs) =
    load_auth_credentials (JObj (delete k kvs)).
Proof.
  intros kvs c k Hk V.
  rewrite !load_dict, !value_at_delete.
  destruct c, Hk as [-> | ->]; cbn [aliases fst snd] in *; key_eqb;
    cbv iota zeta; unfold py_or;
    repeat (cbn [truthy andb];
            match goal with
            | E : truthy ?v = _ |- context [truthy ?v] => rewrite E
            | |- context [truthy (value_at ?a ?b)] =>
                destruct (truthy (value_at a b)) eqn:?
            end);
    reflexivity.
Qed.

Lemma lstrip_blank (s : str) : forallb isspace s = true -> lstrip s = [].
Proof.
  induction s as [|c s IH]; simpl; [reflexivity|].
  intros H. apply andb_true_iff in H as [Hc Hs]. rewrite Hc. exact (IH Hs).
Qed.

Lemma resolve_ok_inv (auth_data : json) (c : credentials) (base : str) :
  resolve_credentials auth_data = Ok (c, base) ->
  load_auth_credentials auth_data = Ok c /\
  exists raw, instance_url c = JStr raw /\ base = normalize_instance_url raw.
Proof.
  unfold resolve_credentials.
  destruct (load_auth_credentials auth_data) as [c'|e]; [|discriminate].
  cbn [bind]. destruct (instance_url c') as [| | | |raw| |] eqn:E;
    try discriminate.
  intros H; inversion H; subst. split; [reflexivity|].
  exists raw; split; [exact E | reflexivity].
Qed.

(** X5.  Whenever the credentials resolve, the base URL is a non-empty str
    that begins with [http://] or [https://] and has no whitespace at
    either end, and it is the normalised form of a non-empty str endpoint
    of the blob; the token is truthy. *)
Theorem resolved_base_is_a_url :
  forall (auth_data : json) (c : credentials) (base : str),
    resolve_credentials auth_data = Ok (c, base) ->
    startswith_any base schemes = true /\
    nonempty base = true /\
    no_lead base = true /\
    no_lead (rev base) = true /\
    truthy (access_token c) = true /\
    exists raw, instance_url c = JStr raw /\ raw <> [] /\
                base = normalize_instance_url raw.
Proof.
  intros auth_data c base H.
  apply resolve_ok_inv in H as [L [raw [E ->]]].
  destruct (load_ok_inv _ L) as (T & U & _).
  destruct (normalize_no_lead raw) as [N1 N2].
  pose proof (normalize_has_scheme raw) as S.
  repeat split; try assumption.
  - destruct (normalize_instance_url raw); [discriminate S | reflexivity].
  - exists raw. repeat split; [exact E|].
    intros ->. rewrite E in U. discriminate.
Qed.

(** X6.  An endpoint made of whitespace only is accepted, since the str is
    not empty, and resolves to the bare scheme [https://]. *)
Theorem blank_endpoint_resolves_to_scheme :
  forall (auth_data : json) (c : credentials) (raw : str),
    load_auth_credentials auth_data = Ok c ->
    instance_url c = JStr raw ->
    forallb isspace raw = true ->
    resolve_credentials auth_data = Ok (c, lit "https://").
Proof.
  intros auth_data c raw L E B.
  unfold resolve_credentials. rewrite L. cbn [bind]. rewrite E.
  unfold normalize_instance_url, strip. rewrite (lstrip_blank _ B).
  reflexivity.
Qed.

(** X7.  A blob that is not a dict, or whose endpoint is truthy but not a
    str, ends [main] with an [AttributeError] that nothing catches, before
    any request is made and with nothing shown. *)
Theorem unusable_blob_is_uncaught :
  forall (script : list reply) (auth_data : json)
         (soql_query api_version : str) (use_tooling_api all_pages : bool),
    is_dict auth_data = false \/
    (exists c, load_auth_credentials auth_data = Ok c /\
               is_str (instance_url c) = false) ->
    main script auth_data soql_query api_version use_tooling_api all_pages =
    {| ended := Uncaught AttributeError; requests_made := []; page := [] |}.
Proof.
  intros script auth_data q api tooling all_pages [H | [c [L H]]];
    unfold main, resolve_credentials.
  - destruct auth_data; try discriminate; reflexivity.
  - rewrite L. cbn [bind]. destruct (instance_url c); try discriminate;
      reflexivity.
Qed.

(* ------------------------------------------------------------------ *)
(** ** Further properties of the loop and of [main] *)

Section Steps.

Variable headers : list (str * str).
Variable base : str.

(** An exception inside [requests.get] leaves the loop as it is. *)
Lemma fetch_loop_fails (all_pages : bool) (e : exn) (script : list reply)
    (url : str) (all_records : list json) (last : option json)
    (sent0 : list request) :
  nonempty url = true ->
  fetch_loop headers base all_pages (Fails e :: script) (JStr url)
             all_records last sent0 =
  {| outcome := Raised e;
     sent := sent0 ++ [request_of headers url];
     shown := [] |}.
Proof. intros Hu. destruct url; [discriminate | reflexivity]. Qed.

(** A 200 response that cannot be read as a page raises. *)
Lemma fetch_loop_malformed (all_pages : bool) (r : response) (e : exn)
    (script : list reply) (url : str) (all_records : list json)
    (last : option json) (sent0 : list request) :
  nonempty url = true ->
  (status_code r =? 200)%Z = true ->
  malformed r e ->
  fetch_loop headers base all_pages (Responds r :: script) (JStr url)
             all_records last sent0 =
  {| outcome := Raised e;
     sent := sent0 ++ [request_of headers url];
     shown := [] |}.
Proof.
  intros Hu Hs Hm. destruct url as [|c url]; [discriminate|].
  simpl. rewrite Hs. simpl.
  destruct Hm as [r Hb | r j Hb Hj | r kvs v Hb Hl Hi]; rewrite Hb.
  - reflexivity.
  - destruct j; try discriminate; reflexivity.
  - simpl. rewrite Hl, Hi. reflexivity.
Qed.

Lemma page_records_inv (r : response) (items : list json) :
  page_records r = Some items ->
  (status_code r =? 200)%Z = true /\
  exists kvs,
    json_body r = Some (JObj kvs) /\
    (records <- get_default (JObj kvs) (lit "records") (JArr []) ;;
     iterate records) = Ok items.
Proof.
  unfold page_records. destruct (status_code r =? 200)%Z; [|discriminate].
  destruct (json_body r) as [[| | | | | |kvs]|]; try discriminate.
  intros H. split; [reflexivity|]. exists kvs. split; [reflexivity|].
  cbn [get_default bind].
  destruct (iterate _) as [l|]; [|discriminate].
  inversion H; reflexivity.
Qed.

(** A page after which the loop stops: one page was asked for, or the page
    holds nothing truthy under ['nextRecordsUrl']. *)
Lemma fetch_loop_last (all_pages : bool) (r : response) (items : list json)
    (script : list reply) (url : str) (all_records : list json)
    (last : option json) (sent0 : list request) :
  nonempty url = true ->
  page_records r = Some items ->
  all_pages = false \/ truthy (continuation_value r) = false ->
  fetch_loop headers base all_pages (Responds r :: script) (JStr url)
             all_records last sent0 =
  {| outcome := Returned (Some (all_records ++ items)) (json_body r);
     sent := sent0 ++ [request_of headers url];
     shown := [] |}.
Proof.
  intros Hu Hp Hstop. destruct url as [|c url]; [discriminate|].
  apply page_records_inv in Hp as [Hs [kvs [Hb Hr]]].
  unfold continuation_value in Hstop. rewrite Hb in Hstop.
  simpl. rewrite Hs, Hb. simpl. cbn [get_default bind] in Hr. rewrite Hr.
  destruct all_pages; [|reflexivity].
  destruct Hstop as [H|H]; [discriminate|].
  unfold value_at in H. rewrite H.
  rewrite fetch_loop_stops; [reflexivity | exact H].
Qed.

(** A page whose ['nextRecordsUrl'] is truthy but not a str. *)
Lemma fetch_loop_bad_continuation (r : response) (items : list json)
    (script : list reply) (url : str) (all_records : list json)
    (last : option json) (sent0 : list request) :
  nonempty url = true ->
  nonempty base = true ->
  page_records r = Some items ->
  truthy (continuation_value r) = true ->
  is_str (continuation_value r) = false ->
  fetch_loop headers base true (Responds r :: script) (JStr url)
             all_records last sent0 =
  {| outcome := Raised TypeError;
     sent := sent0 ++ [request_of headers url];
     shown := [] |}.
Proof.
  intros Hu Hbase Hp Ht Hn. destruct url as [|c url]; [discriminate|].
  destruct base as [|b base']; [discriminate|].
  apply page_records_inv in Hp as [Hs [kvs [Hb Hr]]].
  unfold continuation_value in Ht, Hn. rewrite Hb in Ht, Hn.
  simpl. rewrite Hs, Hb. simpl. cbn [get_default bind] in Hr. rewrite Hr.
  unfold value_at in Ht, Hn. rewrite Ht.
  destruct (match lookup (lit "nextRecordsUrl") kvs with
            | Some v => v
            | None => JNull
            end); try discriminate; reflexivity.
Qed.

(** The pages that carry a continuation, then the rest of the script. *)
Lemma fetch_data_prefix (all_pages : bool) (init : list response)
    (tail : list reply) (url : str) :
  nonempty url = true ->
  all_pages = true \/ init = [] ->
  forallb (continues base) init = true ->
  fetch_data (map Responds init ++ tail) url headers base all_pages =
  fetch_loop headers base all_pages tail (JStr (follow base url init))
             (items_of init) (last_body None init)
             (map (request_of headers) (visited base url init)) /\
  nonempty (follow base url init) = true.
Proof.
  intros Hu [-> | ->] Hc; unfold fetch_data.
  - exact (@fetch_loop_pages headers base init tail url [] None [] Hu Hc).
  - split; [reflexivity | exact Hu].
Qed.

End Steps.

Lemma fetch_loop_headers (headers : list (str * str)) (base : str)
    (all_pages : bool) (script : list reply) :
  forall (full_url : json) (all_records : list json) (last : option json)
         (sent0 : list request),
    Forall (fun r => req_headers r = headers) sent0 ->
    Forall (fun r => req_headers r = headers)
           (sent (fetch_loop headers base all_pages script full_url
                             all_records last sent0)).
Proof.
  assert (A : forall (sent0 : list request) (u : json),
             Forall (fun r => req_headers r = headers) sent0 ->
             Forall (fun r => req_headers r = headers)
                    (sent0 ++ [{| req_url := u; req_headers := headers |}])).
  { intros sent0 u H. apply Forall_app. split; [exact H|].
    constructor; [reflexivity | constructor]. }
  induction script as [|rep script IH]; intros full_url acc last sent0 H.
  - simpl. destruct (truthy full_url); simpl; auto.
  - simpl. destruct (truthy full_url); simpl; [|exact H].
    repeat (case_step; cbn [sent]); auto.
Qed.

Lemma execute_query_of_run (script : list reply) (creds : credentials)
    (base q api : str) (tooling all_pages : bool) (run : fetch_run) :
  q <> [] ->
  nonempty (joined (form_full_url base api tooling q)) = true ->
  fetch_data script (joined (form_full_url base api tooling q))
             (make_headers creds) base all_pages = run ->
  execute_query script creds base q api tooling all_pages =
  match outcome run with
  | Returned data last_response =>
      {| ended := Finished; requests_made := sent run;
         page := shown run ++
                 materialize (joined (form_full_url base api tooling q))
                             data last_response |}
  | Raised e =>
      {| ended := Finished; requests_made := sent run;
         page := shown run ++ an_error_occurred e |}
  | Unanswered =>
      {| ended := NoReply; requests_made := sent run; page := shown run |}
  end.
Proof.
  intros Hq Hu <-. rewrite execute_query_formed by assumption. reflexivity.
Qed.

(** X8.  Every request of a run, the first one and each one that follows a
    continuation reference, carries the same two headers: the bearer token
    of the credentials and the JSON content type. *)
Theorem every_request_carries_the_token :
  forall (script : list reply) (auth_credentials : credentials)
         (base soql_query api_version : str)
         (use_tooling_api all_pages : bool),
    Forall (fun r =>
              req_headers r =
              [ (lit "Authorization",
                 lit "Bearer " ++ f_field (access_token auth_credentials));
                (lit "Content-Type", lit "application/json") ])
           (requests_made
              (execute_query script auth_credentials base soql_query
                             api_version use_tooling_api all_pages)).
Proof.
  intros script creds base q api tooling all_pages.
  destruct q as [|c q]; [constructor|].
  unfold execute_query.
  destruct (form_full_url base api tooling (c :: q)) as [u|e];
    [|constructor].
  rewrite try_fetch_requests.
  exact (@fetch_loop_headers (make_headers creds) base all_pages script
           (JStr u) [] None [] (Forall_nil _)).
Qed.

(** X9.  Called with an empty URL, [fetch_data] makes no request and ends
    with [UnboundLocalError], since [last_response] was never assigned;
    called with any other URL, its first request goes to that URL. *)
Theorem first_request_or_unbound :
  forall (script : list reply) (full_url : str) (headers : list (str * str))
         (base : str) (all_pages : bool),
    (full_url = [] ->
     fetch_data script full_url headers base all_pages =
     {| outcome := Raised UnboundLocalError; sent := []; shown := [] |}) /\
    (full_url <> [] ->
     exists more,
       sent (fetch_data script full_url headers base all_pages) =
       request_of headers full_url :: more).
Proof.
  intros script full_url headers base all_pages. split.
  - intros ->. unfold fetch_data. destruct script; reflexivity.
  - intros Hne. destruct full_url as [|c u]; [congruence|].
    unfold fetch_data. destruct script as [|rep script].
    + exists []; reflexivity.
    + simpl. repeat case_step; cbn [sent];
        try (exists []; reflexivity).
      match goal with
      | |- context [fetch_loop _ _ _ _ ?u ?a ?l ?s] =>
          destruct (fetch_loop_sent headers base true script u a l s)
            as [more [E _]]
      end.
      rewrite E. exists more. reflexivity.
Qed.

Lemma execute_query_raised (script : list reply) (creds : credentials)
    (base q api : str) (tooling all_pages : bool) (e : exn)
    (reqs : list request) :
  q <> [] ->
  nonempty (joined (form_full_url base api tooling q)) = true ->
  fetch_data script (joined (form_full_url base api tooling q))
             (make_headers creds) base all_pages =
    {| outcome := Raised e; sent := reqs; shown := [] |} ->
  execute_query script creds base q api tooling all_pages =
  {| ended := Finished; requests_made := reqs;
     page := [st_error (lit "An error occurred: " ++ exn_text e)] |}.
Proof.
  intros Hq Hu H.
  rewrite (@execute_query_of_run script creds base q api tooling all_pages _
             Hq Hu H).
  reflexivity.
Qed.

(** X10.  An exception raised by [requests.get], at the first request or
    after pages that were fetched, ends the run: [main] shows one error
    with the text of the exception and nothing of the records gathered so
    far, and no request follows the failing one. *)
Theorem transport_error_discards_everything :
  forall (auth_credentials : credentials)
         (base soql_query api_version : str) (use_tooling_api all_pages : bool)
         (init : list response) (e : exn) (rest : list reply),
    soql_query <> [] ->
    nonempty (joined (form_full_url base api_version use_tooling_api
                                    soql_query)) = true ->
    all_pages = true \/ init = [] ->
    forallb (continues base) init = true ->
    let m := execute_query (map Responds init ++ Fails e :: rest)
                           auth_credentials base soql_query api_version
                           use_tooling_api all_pages in
    ended m = Finished /\
    page m = [st_error (lit "An error occurred: " ++ exn_text e)] /\
    List.length (requests_made m) = S (List.length init).
Proof.
  intros creds base q api tooling all_pages init e rest Hq Hu Ha Hc m.
  destruct (@fetch_data_prefix (make_headers creds) base all_pages init
              (Fails e :: rest) _ Hu Ha Hc) as [E Hn].
  rewrite fetch_loop_fails in E by exact Hn.
  apply execute_query_raised in E; [|exact Hq|exact Hu].
  subst m. rewrite E.
  cbn [ended page requests_made]. repeat split.
  rewrite length_app, length_map, visited_length. simpl. lia.
Qed.

(** X11.  A response with status 200 whose body is not JSON, or is JSON but
    not an object, or holds under ['records'] something that cannot be
    iterated, ends the run in the same way: one error, none of the records
    gathered so far, no further request. *)
Theorem malformed_page_discards_everything :
  forall (auth_credentials : credentials)
         (base soql_query api_version : str) (use_tooling_api all_pages : bool)
         (init : list response) (r : response) (e : exn) (rest : list reply),
    soql_query <> [] ->
    nonempty (joined (form_full_url base api_version use_tooling_api
                                    soql_query)) = true ->
    all_pages = true \/ init = [] ->
    forallb (continues base) init = true ->
    (status_code r =? 200)%Z = true ->
    malformed r e ->
    let m := execute_query (map Responds init ++ Responds r :: rest)
                           auth_credentials base soql_query api_version
                           use_tooling_api all_pages in
    ended m = Finished /\
    page m = [st_error (lit "An error occurred: " ++ exn_text e)] /\
    List.length (requests_made m) = S (List.length init).
Proof.
  intros creds base q api tooling all_pages init r e rest Hq Hu Ha Hc Hs Hm m.
  destruct (@fetch_data_prefix (make_headers creds) base all_pages init
              (Responds r :: rest) _ Hu Ha Hc) as [E Hn].
  erewrite fetch_loop_malformed in E by eassumption.
  apply execute_query_raised in E; [|exact Hq|exact Hu].
  subst m. rewrite E.
  cbn [ended page requests_made]. repeat split.
  rewrite length_app, length_map, visited_length. simpl. lia.
Qed.

(** X12.  With all pages asked for, a page that holds a falsy value under
    ['nextRecordsUrl'] ([null], an empty str, [false], [0]) ends the
    pagination just as a page without the key: the records gathered are
    returned and the replies that remain are not asked for. *)
Theorem falsy_continuation_ends_pagination :
  forall (headers : list (str * str)) (base full_url : str)
         (init : list response) (fin : response) (items : list json)
         (rest : list reply),
    nonempty full_url = true ->
    forallb (continues base) init = true ->
    page_records fin = Some items ->
    truthy (continuation_value fin) = false ->
    let run := fetch_data (map Responds init ++ Responds fin :: rest)
                          full_url headers base true in
    outcome run = Returned (Some (items_of init ++ items)) (json_body fin) /\
    List.length (sent run) = S (List.length init) /\
    shown run = [].
Proof.
  intros headers base full_url init fin items rest Hu Hc Hp Hf run.
  destruct (@fetch_data_prefix headers base true init (Responds fin :: rest)
              _ Hu (or_introl eq_refl) Hc) as [E Hn].
  erewrite fetch_loop_last in E; [|exact Hn|exact Hp|exact (or_intror Hf)].
  subst run. rewrite E. cbn [outcome sent shown]. repeat split.
  rewrite length_app, length_map, visited_length. simpl. lia.
Qed.

(** X13.  A response with status 200 whose body is an object without a
    ['records'] key counts as a page with no records: when the loop stops
    there, [main] reports that no data was found, not an error. *)
Theorem missing_records_key_is_no_data :
  forall (auth_credentials : credentials)
         (base soql_query api_version : str) (use_tooling_api all_pages : bool)
         (r : response) (kvs : list (str * json)) (rest : list reply),
    soql_query <> [] ->
    nonempty (joined (form_full_url base api_version use_tooling_api
                                    soql_query)) = true ->
    (status_code r =? 200)%Z = true ->
    json_body r = Some (JObj kvs) ->
    lookup (lit "records") kvs = None ->
    all_pages = false \/ truthy (continuation_value r) = false ->
    let m := execute_query (Responds r :: rest)
                           auth_credentials base soql_query api_version
                           use_tooling_api all_pages in
    ended m = Finished /\
    page m = no_data_page /\
    List.length (requests_made m) = 1.
Proof.
  intros creds base q api tooling all_pages r kvs rest Hq Hu Hs Hb Hl Hstop m.
  assert (Hp : page_records r = Some []).
  { unfold page_records. rewrite Hs, Hb, Hl. reflexivity. }
  assert (E : fetch_data (Responds r :: rest)
                         (joined (form_full_url base api tooling q))
                         (make_headers creds) base all_pages =
              {| outcome := Returned (Some []) (json_body r);
                 sent := [request_of (make_headers creds)
                            (joined (form_full_url base api tooling q))];
                 shown := [] |}).
  { unfold fetch_data.
    erewrite fetch_loop_last; [reflexivity|exact Hu|exact Hp|exact Hstop]. }
  apply execute_query_of_run in E; [|exact Hq|exact Hu].
  subst m. rewrite E. cbn [outcome sent shown]. repeat split.
Qed.

(** X14.  With all pages asked for, a page whose ['nextRecordsUrl'] is
    truthy but not a str (a number, [true], a list, a dict) makes [urljoin]
    refuse it: the run ends with a [TypeError] shown as an error, and the
    records of that page and of the pages before it are lost. *)
Theorem non_str_continuation_is_an_error :
  forall (auth_credentials : credentials)
         (base soql_query api_version : str) (use_tooling_api : bool)
         (init : list response) (r : response) (items : list json)
         (rest : list reply),
    soql_query <> [] ->
    nonempty (joined (form_full_url base api_version use_tooling_api
                                    soql_query)) = true ->
    nonempty base = true ->
    forallb (continues base) init = true ->
    page_records r = Some items ->
    truthy (continuation_value r) = true ->
    is_str (continuation_value r) = false ->
    let m := execute_query (map Responds init ++ Responds r :: rest)
                           auth_credentials base soql_query api_version
                           use_tooling_api true in
    ended m = Finished /\
    page m = [st_error (lit "An error occurred: " ++ exn_text TypeError)] /\
    List.length (requests_made m) = S (List.length init).
Proof.
  intros creds base q api tooling init r items rest Hq Hu Hb Hc Hp Ht Hn m.
  destruct (@fetch_data_prefix (make_headers creds) base true init
              (Responds r :: rest) _ Hu (or_introl eq_refl) Hc) as [E Hf].
  erewrite fetch_loop_bad_continuation in E by eassumption.
  apply execute_query_raised in E; [|exact Hq|exact Hu].
  subst m. rewrite E.
  cbn [ended page requests_made]. repeat split.
  rewrite length_app, length_map, visited_length. simpl. lia.
Qed.

(** X15.  When the first reply does not carry a truthy ['nextRecordsUrl'],
    asking for all pages changes nothing: the whole run of [fetch_data] is
    the one made when asking for a single page. *)
Theorem all_pages_is_idle_without_continuation :
  forall (rep : reply) (rest : list reply) (full_url : str)
         (headers : list (str * str)) (base : str),
    (forall r, rep = Responds r -> truthy (continuation_value r) = false) ->
    fetch_data (rep :: rest) full_url headers base true =
    fetch_data (rep :: rest) full_url headers base false.
Proof.
  intros rep rest full_url headers base H. unfold fetch_data.
  destruct full_url as [|c u]; [reflexivity|].
  destruct rep as [r|e]; [|reflexivity].
  specialize (H r eq_refl). unfold continuation_value in H.
  simpl. destruct (negb (status_code r =? 200)%Z); [reflexivity|].
  destruct (json_body r) as [j|]; [|reflexivity].
  destruct j as [| | | | | |kvs]; try reflexivity.
  simpl.
  destruct (iterate match lookup (lit "records") kvs with
                    | Some v => v
                    | None => JArr []
                    end) as [items|e]; [|reflexivity].
  unfold value_at in H. rewrite H.
  rewrite fetch_loop_stops by exact H. reflexivity.
Qed.

Lemma follow_repeat (base url : str) (r : response) (n : nat) :
  next_url base url r = url -> follow base url (repeat r n) = url.
Proof. intros H. induction n; simpl; [reflexivity|]. rewrite H; exact IHn. Qed.

Lemma visited_repeat (base url : str) (r : response) (n : nat) :
  next_url base url r = url -> visited base url (repeat r n) = repeat url n.
Proof.
  intros H. induction n; simpl; [reflexivity|]. rewrite H, IHn; reflexivity.
Qed.

Lemma forallb_repeat (A : Type) (f : A -> bool) (a : A) (n : nat) :
  f a = true -> forallb f (repeat a n) = true.
Proof. intros H. induction n; simpl; [reflexivity|]. rewrite H; exact IHn. Qed.

(** X16.  The loop has no page limit and does not notice a repeated
    reference: when a page leads back to the URL it was fetched from, any
    number [n] of such replies is consumed, each by a request to that URL,
    and one more request to it is made. *)
Theorem repeated_reference_is_followed_for_ever :
  forall (n : nat) (r : response) (full_url : str)
         (headers : list (str * str)) (base : str),
    nonempty full_url = true ->
    continues base r = true ->
    next_url base full_url r = full_url ->
    fetch_data (map Responds (repeat r n)) full_url headers base true =
    {| outcome := Unanswered;
       sent := repeat (request_of headers full_url) (S n);
       shown := [] |}.
Proof.
  intros n r full_url headers base Hu Hc Hn.
  destruct (@fetch_data_prefix headers base true (repeat r n) [] full_url Hu
              (or_introl eq_refl) (forallb_repeat _ _ n Hc)) as [E _].
  rewrite app_nil_r in E. rewrite E.
  rewrite (follow_repeat _ _ n Hn), (visited_repeat _ _ n Hn), map_repeat.
  destruct full_url as [|c u]; [discriminate|].
  simpl. rewrite <- repeat_cons. reflexivity.
Qed.

Lemma materialize_data (full_url : str) (data : list json)
    (last : option json) (df : frame) (c : csv) :
  data <> [] ->
  DataFrame data = Ok df ->
  to_csv df = Ok c ->
  materialize full_url (Some data) last =
  [st_dataframe df; st_download_button c;
   st_write (lit "**Formed API URL:**"); st_code full_url] ++
  match last with
  | Some j => if truthy j
              then [st_write (lit "**JSON Response:**"); st_json j]
              else []
  | None => []
  end.
Proof.
  intros Hd HD HC. destruct data as [|d ds]; [congruence|].
  unfold materialize. rewrite HD, HC. reflexivity.
Qed.

(** X17.  After a run over several pages that gathered records, [main]
    shows the table of all the records and its CSV, then the URL of the
    first request (not of the last page), then the JSON of the last page
    alone (not of the pages before it), the latter unless that body is an
    empty object. *)
Theorem successful_run_shows_first_url_and_last_page :
  forall (auth_credentials : credentials)
         (base soql_query api_version : str) (use_tooling_api : bool)
         (init : list response) (fin : response) (items : list json)
         (rest : list reply) (df : frame) (c : csv),
    soql_query <> [] ->
    nonempty (joined (form_full_url base api_version use_tooling_api
                                    soql_query)) = true ->
    forallb (continues base) init = true ->
    page_records fin = Some items ->
    truthy (continuation_value fin) = false ->
    items_of init ++ items <> [] ->
    DataFrame (items_of init ++ items) = Ok df ->
    to_csv df = Ok c ->
    exists last,
      json_body fin = Some last /\
      page (execute_query (map Responds init ++ Responds fin :: rest)
                          auth_credentials base soql_query api_version
                          use_tooling_api true) =
      [st_dataframe df; st_download_button c;
       st_write (lit "**Formed API URL:**");
       st_code (joined (form_full_url base api_version use_tooling_api
                                      soql_query))] ++
      (if truthy last
       then [st_write (lit "**JSON Response:**"); st_json last]
       else []).
Proof.
  intros creds base q api tooling init fin items rest df c
         Hq Hu Hc Hp Hf Hd HD HC.
  destruct (@fetch_data_prefix (make_headers creds) base true init
              (Responds fin :: rest) _ Hu (or_introl eq_refl) Hc) as [E Hn].
  erewrite fetch_loop_last in E; [|exact Hn|exact Hp|exact (or_intror Hf)].
  apply execute_query_of_run in E; [|exact Hq|exact Hu].
  rewrite E. cbn [outcome sent shown page app].
  rewrite (materialize_data _ _ Hd HD HC).
  destruct (page_records_inv _ Hp) as [_ [kvs [Hb _]]].
  exists (JObj kvs). split; [exact Hb|]. rewrite Hb. reflexivity.
Qed.

(** X18.  Whatever [urljoin] and the server do, a pressed button ends in
    one of these ways.  [urljoin] raised while the URL was formed: the
    exception leaves [main], nothing is shown and no request is made.  The
    replies ran out: nothing is shown.  Otherwise [main] finishes and the
    page is one error, or the no-data warning alone, or the table followed
    by one error (the CSV could not be made), or the table followed by its
    download button, the caption and the formed URL.  So a download button
    never comes without its table, records are never shown beside a fetch
    error, and the warning never comes with anything else. *)
Theorem page_shapes :
  forall (script : list reply) (auth_credentials : credentials)
         (base soql_query api_version : str)
         (use_tooling_api all_pages : bool),
    let m := execute_query script auth_credentials base soql_query
                           api_version use_tooling_api all_pages in
    (exists e,
        soql_query <> [] /\
        form_full_url base api_version use_tooling_api soql_query = Raise e /\
        m = {| ended := Uncaught e; requests_made := []; page := [] |}) \/
    (ended m = NoReply /\ page m = []) \/
    (ended m = Finished /\
     ((exists msg, page m = [st_error msg]) \/
      page m = no_data_page \/
      (exists df msg, page m = [st_dataframe df; st_error msg]) \/
      (exists df c full_url tail,
          to_csv df = Ok c /\
          form_full_url base api_version use_tooling_api soql_query =
            Ok full_url /\
          page m = st_dataframe df :: st_download_button c ::
                   st_write (lit "**Formed API URL:**") ::
                   st_code full_url :: tail))).
Proof.
  intros script creds base q api tooling all_pages m. subst m.
  destruct q as [|ch q].
  { right; right. split; [reflexivity|]. left. eexists; reflexivity. }
  unfold execute_query.
  destruct (form_full_url base api tooling (ch :: q)) as [u|e] eqn:F.
  2:{ left. exists e. repeat split. discriminate. }
  right.
  pose proof (fetch_loop_shown (make_headers creds) base all_pages script
                (JStr u) [] None []) as S.
  cbv zeta in S. unfold try_fetch, fetch_data. cbv zeta.
  destruct (outcome (fetch_loop (make_headers creds) base all_pages script
                       (JStr u) [] None [])) as [data last|e|];
    cbn [ended page].
  - right. split; [reflexivity|]. destruct data as [[|d ds]|].
    + rewrite S. right; left. reflexivity.
    + rewrite S. cbn [app]. unfold materialize.
      destruct (DataFrame (d :: ds)) as [df|e].
      * destruct (to_csv df) as [c|e] eqn:EC.
        -- right; right; right. exists df, c, u. eexists.
           split; [exact EC | split; reflexivity].
        -- right; right; left. exists df. eexists. reflexivity.
      * left. eexists. reflexivity.
    + destruct S as [r S]. rewrite S. left. eexists. reflexivity.
  - right. split; [reflexivity|]. rewrite S. left. eexists. reflexivity.
  - left. split; [reflexivity | exact S].
Qed.



(** What the loop returns begins with what it had gathered. *)
Lemma fetch_loop_grows (headers : list (str * str)) (base : str)
    (all_pages : bool) (script : list reply) :
  forall (full_url : json) (all_records : list json) (last : option json)
         (sent0 : list request) (b : list json) (l : option json),
    outcome (fetch_loop headers base all_pages script full_url
                        all_records last sent0) = Returned (Some b) l ->
    exists more, b = all_records ++ more.
Proof.
  induction script as [|rep script IH]; intros full_url acc last sent0 b l.
  - simpl. destruct (truthy full_url); simpl; [discriminate|].
    destruct last; [|discriminate].
    intros H; inversion H. exists []. rewrite app_nil_r. reflexivity.
  - simpl. destruct (truthy full_url); simpl.
    + repeat (case_step; cbn [outcome]); try discriminate.
      * intros H. apply IH in H as [more ->].
        eexists. rewrite <- app_assoc. reflexivity.
      * intros H; inversion H. eexists; reflexivity.
    + destruct last; [|discriminate].
      intros H; inversion H. exists []. rewrite app_nil_r. reflexivity.
Qed.

(** X20.  Whenever [fetch_data] returns records with all pages asked for,
    it returns records on the same replies with one page asked for, and
    these are the first part of the former. *)
Theorem first_page_is_a_prefix_of_all_pages :
  forall (script : list reply) (full_url : str) (headers : list (str * str))
         (base : str) (b : list json) (last2 : option json),
    outcome (fetch_data script full_url headers base true) =
      Returned (Some b) last2 ->
    exists first more last1,
      outcome (fetch_data script full_url headers base false) =
        Returned (Some first) last1 /\
      b = first ++ more.
Proof.
  intros script full_url headers base b last2. unfold fetch_data.
  destruct full_url as [|c u].
  { destruct script; discriminate. }
  destruct script as [|rep script]; [discriminate|].
  simpl. repeat (case_step; cbn [outcome]); try discriminate.
  intros H. apply fetch_loop_grows in H as [more ->].
  eexists _, more, _. split; reflexivity.
Qed.

(** X22.  [main] sends a request only when a file was uploaded, its
    credentials resolved, the button was pressed and the query is not
    empty. *)
Theorem requests_need_upload_and_button :
  forall (script : list reply) (auth_json : option json)
         (soql_query api_version : str)
         (use_tooling_api all_pages button : bool),
    requests_made (main_form script auth_json soql_query api_version
                             use_tooling_api all_pages button) <> [] ->
    exists auth_data c base,
      auth_json = Some auth_data /\
      resolve_credentials auth_data = Ok (c, base) /\
      button = true /\
      soql_query <> [].
Proof.
  intros script auth_json q api tooling all_pages button H.
  unfold main_form in H.
  destruct auth_json as [auth_data|]; [|contradiction H; reflexivity].
  destruct (resolve_credentials auth_data) as [[c base]|e] eqn:E;
    [|contradiction H; reflexivity].
  destruct button; [|contradiction H; reflexivity].
  exists auth_data, c, base.
  split; [reflexivity | split; [exact E | split; [reflexivity|]]].
  intros Hq. subst q. apply H. reflexivity.
Qed.

(** X23.  A blob whose credentials do not resolve makes [main] fail as
    soon as it is uploaded, whether or not the button is pressed, and the
    failure is the one [main] has when it runs the query. *)
Theorem credential_error_surfaces_at_upload :
  forall (script : list reply) (auth_data : json)
         (soql_query api_version : str)
         (use_tooling_api all_pages button : bool) (e : exn),
    resolve_credentials auth_data = Raise e ->
    main_form script (Some auth_data) soql_query api_version
              use_tooling_api all_pages button =
      {| ended := Uncaught e; requests_made := []; page := [] |} /\
    main_form script (Some auth_data) soql_query api_version
              use_tooling_api all_pages button =
      main script auth_data soql_query api_version use_tooling_api all_pages.
Proof.
  intros script auth_data q api tooling all_pages button e H.
  unfold main_form, main. rewrite H. split; reflexivity.
Qed.

Lemma fetch_loop_join_raises (headers : list (str * str)) (base : str)
    (r : response) (items : list json) (u : str) (e : exn)
    (script : list reply) (url : str) (all_records : list json)
    (last : option json) (sent0 : list request) :
  nonempty url = true ->
  page_records r = Some items ->
  continuation r = Some u ->
  urljoin base u = Raise e ->
  fetch_loop headers base true (Responds r :: script) (JStr url)
             all_records last sent0 =
  {| outcome := Raised e;
     sent := sent0 ++ [request_of headers url];
     shown := [] |}.
Proof.
  intros Hu Hp Hn J. destruct url as [|c url]; [discriminate|].
  apply page_records_inv in Hp as [Hs [kvs [Hb Hr]]].
  unfold continuation in Hn. rewrite Hb in Hn.
  destruct (lookup (lit "nextRecordsUrl") kvs) as [[| | | |[|d v]| |]|] eqn:E;
    try discriminate.
  inversion Hn; subst u.
  simpl. rewrite Hs, Hb. simpl. cbn [get_default bind] in Hr. rewrite Hr, E.
  simpl. rewrite J. reflexivity.
Qed.

(** X24.  An exception of [urljoin] is caught only inside the loop.  Raised
    while the first URL is formed, before the [try], it leaves [main] with
    nothing shown and no request made; raised on the reference of a page,
    it is shown as an error, the records gathered so far are lost and no
    request follows. *)
Theorem urljoin_error_is_caught_only_in_the_loop :
  (forall (script : list reply) (auth_credentials : credentials)
          (base soql_query api_version : str)
          (use_tooling_api all_pages : bool) (e : exn),
      soql_query <> [] ->
      form_full_url base api_version use_tooling_api soql_query = Raise e ->
      execute_query script auth_credentials base soql_query api_version
                    use_tooling_api all_pages =
      {| ended := Uncaught e; requests_made := []; page := [] |}) /\
  (forall (auth_credentials : credentials)
          (base soql_query api_version : str) (use_tooling_api : bool)
          (init : list response) (r : response) (items : list json)
          (u : str) (e : exn) (rest : list reply),
      soql_query <> [] ->
      nonempty (joined (form_full_url base api_version use_tooling_api
                                      soql_query)) = true ->
      forallb (continues base) init = true ->
      page_records r = Some items ->
      continuation r = Some u ->
      urljoin base u = Raise e ->
      let m := execute_query (map Responds init ++ Responds r :: rest)
                             auth_credentials base soql_query api_version
                             use_tooling_api true in
      ended m = Finished /\
      page m = [st_error (lit "An error occurred: " ++ exn_text e)] /\
      List.length (requests_made m) = S (List.length init)).
Proof.
  split.
  - intros script creds base q api tooling all_pages e Hq Hf.
    destruct q as [|c q]; [congruence|].
    unfold execute_query. rewrite Hf. reflexivity.
  - intros creds base q api tooling init r items u e rest Hq Hu Hc Hp Hn J m.
    destruct (@fetch_data_prefix (make_headers creds) base true init
                (Responds r :: rest) _ Hu (or_introl eq_refl) Hc) as [E Hf].
    erewrite fetch_loop_join_raises in E by eassumption.
    apply execute_query_raised in E; [|exact Hq|exact Hu].
    subst m. rewrite E.
    cbn [ended page requests_made]. repeat split.
    rewrite length_app, length_map, visited_length. simpl. lia.
Qed.

End Program.

(* ------------------------------------------------------------------ *)
(** ** The table *)

Lemma existsb_eqb_In (x : str) (l : list str) :
  existsb (PyStr.eqb x) l = true <-> In x l.
Proof.
  induction l as [|a l IH]; simpl; [split; [discriminate | tauto]|].
  rewrite orb_true_iff, eqb_eq, IH. split; intros [H|H]; auto.
Qed.

Lemma first_seen_In (l : list str) :
  forall (seen : list str) (x : str),
    In x (first_seen seen l) <-> In x l /\ ~ In x seen.
Proof.
  induction l as [|a l IH]; intros seen x; simpl; [tauto|].
  destruct (existsb (PyStr.eqb a) seen) eqn:E.
  - apply existsb_eqb_In in E. rewrite IH. split.
    + intros [H1 H2]; auto.
    + intros [[H1|H1] H2]; [subst; tauto | auto].
  - assert (Ha : ~ In a seen).
    { intros H; apply existsb_eqb_In in H; congruence. }
    simpl. rewrite IH. simpl. split.
    + intros [H|[H1 H2]]; [subst; auto | split; [auto | tauto]].
    + intros [[H1|H1] H2]; [auto|].
      destruct (PyStr.eqb a x) eqn:Eax.
      * apply eqb_eq in Eax; auto.
      * apply eqb_neq in Eax. right; split; [auto | tauto].
Qed.

Lemma first_seen_NoDup (l : list str) :
  forall seen : list str, NoDup (first_seen seen l).
Proof.
  induction l as [|a l IH]; intros seen; simpl; [constructor|].
  destruct (existsb (PyStr.eqb a) seen); [apply IH|].
  constructor; [|apply IH].
  rewrite first_seen_In. simpl. tauto.
Qed.

(** Only the members of [seen] matter. *)
Lemma first_seen_ext (l : list str) :
  forall seen seen' : list str,
    (forall x, In x seen <-> In x seen') ->
    first_seen seen l = first_seen seen' l.
Proof.
  induction l as [|a l IH]; intros seen seen' H; simpl; [reflexivity|].
  assert (E : existsb (PyStr.eqb a) seen = existsb (PyStr.eqb a) seen').
  { destruct (existsb (PyStr.eqb a) seen) eqn:E1;
      destruct (existsb (PyStr.eqb a) seen') eqn:E2; try reflexivity.
    - apply existsb_eqb_In, H, existsb_eqb_In in E1. congruence.
    - apply existsb_eqb_In, H, existsb_eqb_In in E2. congruence. }
  rewrite E. destruct (existsb (PyStr.eqb a) seen').
  - apply IH, H.
  - f_equal. apply IH. intros x; simpl. rewrite H. tauto.
Qed.

(** The names met in a second list come after those of the first. *)
Lemma first_seen_app (l1 l2 : list str) :
  forall seen : list str,
    first_seen seen (l1 ++ l2) =
    first_seen seen l1 ++ first_seen (first_seen seen l1 ++ seen) l2.
Proof.
  induction l1 as [|a l1 IH]; intros seen; simpl; [reflexivity|].
  destruct (existsb (PyStr.eqb a) seen) eqn:E; [apply IH|].
  simpl. f_equal. rewrite IH. f_equal.
  apply first_seen_ext. intros x. simpl. rewrite !in_app_iff. simpl. tauto.
Qed.

Lemma lookup_None (c : str) (r : record) :
  lookup c r = None <-> ~ In c (map fst r).
Proof.
  induction r as [|[k v] r IH]; simpl; [tauto|].
  destruct (PyStr.eqb c k) eqn:E.
  - apply eqb_eq in E. subst. split; [discriminate | tauto].
  - apply eqb_neq in E. rewrite IH. split; [intros H [H'|H']; auto | tauto].
Qed.

Lemma as_records_objects (records : list record) :
  as_records (map JObj records) = Some records.
Proof.
  induction records as [|r records IH]; simpl; [reflexivity|].
  rewrite IH; reflexivity.
Qed.

(** Where a name stands among the first-seen names: its first occurrence
    in the list comes after names that stand before it only. *)
Lemma first_seen_split (l : list str) :
  forall (seen pre : list str) (c : str) (post : list str),
    first_seen seen l = pre ++ c :: post ->
    exists before after,
      l = before ++ c :: after /\
      ~ In c before /\
      (forall x, In x before -> In x seen \/ In x pre).
Proof.
  induction l as [|a l IH]; intros seen pre c post H; simpl in H.
  - destruct pre; discriminate.
  - destruct (existsb (PyStr.eqb a) seen) eqn:E.
    + assert (Hc : In c (first_seen seen l)).
      { rewrite H. apply in_or_app. right. left. reflexivity. }
      apply first_seen_In in Hc as [_ Hc].
      apply existsb_eqb_In in E.
      destruct (IH _ _ _ _ H) as [before [after [E1 [N1 S1]]]].
      exists (a :: before), after. subst l. split; [reflexivity|]. split.
      * intros [->|Hin]; [contradiction | exact (N1 Hin)].
      * intros x [<-|Hin]; [left; exact E | exact (S1 x Hin)].
    + destruct pre as [|p pre]; simpl in H; inversion H; subst.
      * exists [], l. split; [reflexivity|]. split; [intros []|intros x []].
      * assert (Hc : In c (first_seen (p :: seen) l)).
        { rewrite H2. apply in_or_app. right. left. reflexivity. }
        apply first_seen_In in Hc as [_ Hc].
        destruct (IH _ _ _ _ H2) as [before [after [E1 [N1 S1]]]].
        exists (p :: before), after. subst l. split; [reflexivity|]. split.
        -- intros [->|Hin]; [apply Hc; left; reflexivity | exact (N1 Hin)].
        -- intros x [<-|Hin]; [right; left; reflexivity|].
           destruct (S1 x Hin) as [[<-|Hs]|Hp].
           ++ right; left; reflexivity.
           ++ left; exact Hs.
           ++ right; right; exact Hp.
Qed.

Lemma NoDup_app_apart (l1 l2 : list str) (x : str) :
  NoDup (l1 ++ l2) -> In x l1 -> In x l2 -> False.
Proof.
  induction l1 as [|a l1 IH]; simpl; intros Hn H1 H2; [exact H1|].
  inversion Hn as [|a' l' Ha Hl]; subst.
  destruct H1 as [<-|H1].
  - apply Ha. apply in_or_app. right. exact H2.
  - exact (IH Hl H1 H2).
Qed.

(** Names that are all different and all new are kept as they come. *)
Lemma first_seen_fresh (l : list str) :
  forall seen : list str,
    NoDup l -> (forall x, In x l -> ~ In x seen) -> first_seen seen l = l.
Proof.
  induction l as [|a l IH]; intros seen Hn Hf; simpl; [reflexivity|].
  inversion Hn as [|a' l' Ha Hl]; subst.
  destruct (existsb (PyStr.eqb a) seen) eqn:E.
  - apply existsb_eqb_In in E. exfalso. exact (Hf a (or_introl eq_refl) E).
  - f_equal. apply IH; [exact Hl|].
    intros x Hx [<-|Hs]; [exact (Ha Hx) | exact (Hf x (or_intror Hx) Hs)].
Qed.

(** C7.  For a non-empty list of records the table has each field name of
    each record as a column, once, and nothing else, in first-seen order:
    the columns begin with the fields of the first record in that record's
    own order, a record that comes later adds its new names after the
    columns already there, in its own order, and the first place where a
    column's name occurs among the fields of the records, read record by
    record, has before it only names of columns that stand before it.
    There is one row per record, in order, with one cell per column; a
    field the record lacks is the missing marker and a field it has is its
    value; and this table is the frame [main] shows, no error coming in
    its place. *)
Theorem table_of_heterogeneous_records :
  forall (other csv : Type) (exn_text : exn -> str)
         (DataFrame_other : list json -> result other)
         (to_csv : frame_of other -> result csv)
         (full_url : str) (last : option json) (records : list record),
    records <> [] ->
    let t := Table records in
    NoDup (columns t) /\
    (forall c, In c (columns t) <->
               exists r, In r records /\ In c (map fst r)) /\
    (forall (r : record) (rs : list record),
        records = r :: rs ->
        columns t = keys r ++ first_seen (keys r) (flat_map (map fst) rs) /\
        (NoDup (map fst r) -> keys r = map fst r)) /\
    (forall r : record,
        columns (Table (records ++ [r])) =
        columns t ++ first_seen (columns t) (map fst r)) /\
    (forall (pre : list str) (c : str) (post : list str),
        columns t = pre ++ c :: post ->
        exists before after,
          flat_map (map fst) records = before ++ c :: after /\
          ~ In c before /\
          (forall x, In x before -> In x pre) /\
          (forall x, In x post -> ~ In x before)) /\
    List.length (rows t) = List.length records /\
    (forall (i : nat) (r : record),
        nth_error records i = Some r ->
        nth_error (rows t) i = Some (map (field r) (columns t))) /\
    (forall (r : record) (c : str),
        ~ In c (map fst r) -> field r c = Missing) /\
    (forall (r : record) (c : str),
        In c (map fst r) ->
        exists v, lookup c r = Some v /\ field r c = Value v) /\
    DataFrame_records DataFrame_other (map JObj records) =
      Ok (RecordFrame t) /\
    hd_error (materialize exn_text (DataFrame_records DataFrame_other) to_csv
                          full_url (Some (map JObj records)) last) =
      Some (@st_dataframe (frame_of other) csv (RecordFrame t)).
Proof.
  intros other csv exn_text DataFrame_other to_csv full_url last records Hne t.
  assert (D : DataFrame_records DataFrame_other (map JObj records) =
              Ok (RecordFrame t)).
  { unfold DataFrame_records. rewrite as_records_objects. reflexivity. }
  assert (ND : NoDup (columns t)) by apply first_seen_NoDup.
  repeat apply conj.
  - exact ND.
  - intros c. unfold t, Table. cbn [columns].
    rewrite first_seen_In, in_flat_map. simpl. tauto.
  - intros r rs ->. split.
    + unfold t, Table, keys. cbn [columns flat_map].
      rewrite first_seen_app, app_nil_r. reflexivity.
    + intros Hn. unfold keys. apply first_seen_fresh; [exact Hn|].
      intros x _ [].
  - intros r. unfold t, Table. cbn [columns].
    rewrite flat_map_app, first_seen_app. cbn [flat_map].
    rewrite !app_nil_r. reflexivity.
  - intros pre c post H.
    assert (H' := H). unfold t, Table in H'. cbn [columns] in H'.
    destruct (first_seen_split _ _ _ _ _ H') as [before [after [E [N S]]]].
    exists before, after. repeat apply conj; [exact E | exact N | |].
    + intros x Hx. destruct (S x Hx) as [[]|Hp]. exact Hp.
    + intros x Hx Hb. destruct (S x Hb) as [[]|Hp].
      rewrite H in ND.
      exact (NoDup_app_apart _ _ x ND Hp (or_intror Hx)).
  - unfold t, Table. cbn [rows]. apply length_map.
  - intros i r H. unfold t, Table. cbn [rows columns].
    rewrite nth_error_map, H. reflexivity.
  - intros r c H. unfold field. apply lookup_None in H. rewrite H. reflexivity.
  - intros r c H. unfold field. destruct (lookup c r) as [v|] eqn:E.
    + exists v; split; reflexivity.
    + apply lookup_None in E. contradiction.
  - exact D.
  - destruct records as [|r rs]; [congruence|].
    unfold materialize. cbn [map]. cbn [map] in D. rewrite D.
    destruct (to_csv (RecordFrame t)); reflexivity.
Qed.

(* ------------------------------------------------------------------ *)
(** ** The properties on the scenarios *)

Import Scenario.

(** Two pages, all pages asked for: three records, two requests. *)
Lemma fetch_all_pages_concatenates_witness :
  nonempty full_url = true /\
  nonempty (joined (urljoin_origin base (lit "/query/01g-500"))) = true /\
  outcome (fetch_data urljoin_origin (frame_of Empty_set) unit
             [Responds page1; Responds page2] full_url headers base true) =
    Returned (Some [r1; r2; r3]) (json_body page2) /\
  map req_url
    (sent (fetch_data urljoin_origin (frame_of Empty_set) unit
             [Responds page1; Responds page2] full_url headers base true)) =
    [JStr full_url;
     JStr (lit "https://my-org.my.salesforce.com/query/01g-500")].
Proof.
  split; [reflexivity | split; [reflexivity|]].
  destruct (proj2 (fetch_all_pages_concatenates urljoin_origin
                     (frame_of Empty_set) unit)
                  headers base full_url [] [] r1 r2 r3 []
                  eq_refl eq_refl) as [A B].
  split; [exact A | exact (f_equal (map req_url) B)].
Defined.

(** The same first page, one page asked for: its two records, one request. *)
Lemma fetch_first_page_only_witness :
  nonempty full_url = true /\
  sent (fetch_data urljoin_origin (frame_of Empty_set) unit
          [Responds page1; Responds page2] full_url headers base false) =
    [request_of headers full_url] /\
  outcome (fetch_data urljoin_origin (frame_of Empty_set) unit
             [Responds page1; Responds page2] full_url headers base false) =
    Returned (Some [r1; r2]) (json_body page1).
Proof.
  split; [reflexivity|].
  destruct (fetch_first_page_only urljoin_origin (frame_of Empty_set) unit
              headers base full_url (Responds page1) [Responds page2] eq_refl)
    as [A B].
  split; [exact A | exact (proj1 (B page1 [r1; r2] eq_refl eq_refl))].
Defined.

(** A 403 on the second page: the error alone is shown, after two
    requests. *)
Lemma failed_page_discards_everything_witness :
  soql_query <> [] /\
  forallb (continues urljoin_origin base) [page1] = true /\
  (status_code forbidden =? 200)%Z = false /\
  page (execute_query urljoin_origin format_value exn_text DataFrame to_csv
          [Responds page1; Responds forbidden]
          auth_credentials base soql_query api_version false true) =
    [st_error (frame_of Empty_set) unit
       (lit "Failed to fetch data: 403 expired")] /\
  List.length
    (requests_made
       (execute_query urljoin_origin format_value exn_text DataFrame to_csv
          [Responds page1; Responds forbidden]
          auth_credentials base soql_query api_version false true)) = 2.
Proof.
  assert (Hq : soql_query <> []) by discriminate.
  split; [exact Hq | split; [reflexivity | split; [reflexivity|]]].
  destruct (proj1 (proj2 (failed_page_discards_everything urljoin_origin
                            format_value exn_text DataFrame to_csv))
                  auth_credentials base soql_query api_version false true
                  [page1] forbidden [] Hq eq_refl (or_introl eq_refl)
                  eq_refl eq_refl) as (_ & A & _ & _ & B).
  split; [exact A | exact B].
Defined.

(** A snake_case blob and a camelCase blob with the same values; a blob
    whose snake_case token is empty; a blob without any endpoint. *)
Lemma credential_aliases_agree_witness :
  resolve_credentials
    (JObj [(lit "access_token", JStr (lit "tok1"));
           (lit "instance_url", JStr (lit "my-org.my.salesforce.com"))]) =
  resolve_credentials
    (JObj [(lit "accessToken", JStr (lit "tok1"));
           (lit "instanceUrl", JStr (lit "my-org.my.salesforce.com"))]) /\
  resolve_credentials
    (JObj [(lit "accessToken", JStr (lit "tok1"));
           (lit "instanceUrl", JStr (lit "my-org.my.salesforce.com"))]) =
  Ok (auth_credentials, base) /\
  resolve_credentials
    (JObj [(lit "access_token", JStr []);
           (lit "accessToken", JStr (lit "tok1"));
           (lit "instance_url", JStr (lit "my-org.my.salesforce.com"))]) =
  resolve_credentials
    (JObj [(lit "accessToken", JStr (lit "tok1"));
           (lit "instance_url", JStr (lit "my-org.my.salesforce.com"))]) /\
  resolve_credentials
    (JObj [(lit "access_token", JStr (lit "tok1"));
           (lit "instanceUrl", JStr [])]) =
  Raise (ValueError missing_credentials).
Proof.
  destruct credential_aliases_agree as (A & B & C).
  destruct (A [(lit "access_token", JStr (lit "tok1"));
               (lit "instance_url", JStr (lit "my-org.my.salesforce.com"))]
              [(lit "accessToken", JStr (lit "tok1"));
               (lit "instanceUrl", JStr (lit "my-org.my.salesforce.com"))]
              (JStr (lit "tok1")) (JStr (lit "my-org.my.salesforce.com"))
              eq_refl eq_refl eq_refl eq_refl eq_refl eq_refl eq_refl eq_refl)
    as [A1 A2].
  split; [exact A1|].
  split; [apply (A2 (lit "my-org.my.salesforce.com"));
          [reflexivity | reflexivity | discriminate]|].
  split.
  - exact (B [(lit "access_token", JStr []);
              (lit "accessToken", JStr (lit "tok1"));
              (lit "instance_url", JStr (lit "my-org.my.salesforce.com"))]
             Token (lit "access_token") (or_introl eq_refl) eq_refl).
  - exact (C [(lit "access_token", JStr (lit "tok1"));
              (lit "instanceUrl", JStr [])]
             Endpoint (or_introl eq_refl) (or_intror eq_refl)).
Defined.

(** A blob that binds all four keys keeps the two snake_case values. *)
Lemma snake_case_wins_witness :
  load_auth_credentials
    (JObj [(lit "accessToken", JStr (lit "camel-token"));
           (lit "access_token", JStr (lit "tok1"));
           (lit "instanceUrl", JStr (lit "camel.example.com"));
           (lit "instance_url", JStr (lit "my-org.my.salesforce.com"))]) =
  Ok auth_credentials.
Proof.
  exact (proj2 (proj2 snake_case_wins)
           [(lit "accessToken", JStr (lit "camel-token"));
            (lit "access_token", JStr (lit "tok1"));
            (lit "instanceUrl", JStr (lit "camel.example.com"));
            (lit "instance_url", JStr (lit "my-org.my.salesforce.com"))]
           (JStr (lit "tok1")) (JStr (lit "camel-token"))
           (JStr (lit "my-org.my.salesforce.com"))
           (JStr (lit "camel.example.com"))
           eq_refl eq_refl eq_refl eq_refl eq_refl eq_refl eq_refl eq_refl).
Defined.

(** A blob without a token and a blob without an endpoint raise the same
    error. *)
Lemma credential_error_is_generic_witness :
  load_auth_credentials
    (JObj [(lit "instance_url", JStr (lit "my-org.my.salesforce.com"))]) =
  Raise (ValueError (lit "Missing required credentials in auth.json")) /\
  load_auth_credentials (JObj [(lit "access_token", JStr (lit "tok1"))]) =
  load_auth_credentials
    (JObj [(lit "instance_url", JStr (lit "my-org.my.salesforce.com"))]).
Proof.
  exact (credential_error_is_generic
           [(lit "instance_url", JStr (lit "my-org.my.salesforce.com"))]
           [(lit "access_token", JStr (lit "tok1"))]
           Token Endpoint eq_refl eq_refl).
Defined.

(** The request of the scenario: the query text, blanks and comma
    included, stands in the URL as typed. *)
Lemma request_url_is_literal_witness :
  hd_error
    (requests_made
       (execute_query urljoin_origin format_value exn_text DataFrame to_csv
          [Responds empty_page]
          auth_credentials base soql_query api_version false false)) =
    Some (request_of headers full_url) /\
  exists url,
    spec_request_url urljoin_origin base api_version soql_query false =
      Ok url /\
    request_of headers full_url =
    request_of (make_headers format_value auth_credentials) url.
Proof.
  split; [reflexivity|].
  exact (proj2 (request_url_is_literal urljoin_origin format_value exn_text
                  DataFrame to_csv base api_version soql_query false)
               [Responds empty_page] auth_credentials false
               (request_of headers full_url) eq_refl).
Defined.

(** Three records with different fields: three columns in first-seen
    order, three rows, the missing marker where a field is not there. *)
Lemma table_of_heterogeneous_records_witness :
  records <> [] /\
  DataFrame (map JObj records) =
  Ok (RecordFrame
        {| columns := [lit "Id"; lit "Name"; lit "Type"];
           rows := [ [Value (JStr (lit "001")); Value (JStr (lit "Acme"));
                      Missing];
                     [Value (JStr (lit "002")); Missing;
                      Value (JStr (lit "Partner"))];
                     [Value (JStr (lit "003")); Value JNull; Missing] ] |}) /\
  hd_error (materialize exn_text DataFrame to_csv full_url
                        (Some (map JObj records)) None) =
  Some (st_dataframe unit (RecordFrame (Table records))).
Proof.
  assert (H : records <> []) by discriminate.
  split; [exact H|].
  destruct (table_of_heterogeneous_records exn_text
              (fun _ : list json => @Raise Empty_set TypeError) to_csv
              full_url None H)
    as (_ & _ & _ & _ & _ & _ & _ & _ & _ & A & B).
  split; [exact A | exact B].
Defined.

(** A run whose only page has no record shows the warning; a blob without
    credentials ends [main] with the exception and an empty page. *)
Lemma no_data_is_not_an_error_witness :
  soql_query <> [] /\
  page (execute_query urljoin_origin format_value exn_text DataFrame to_csv
          [Responds empty_page]
          auth_credentials base soql_query api_version false true) =
    no_data_page (frame_of Empty_set) unit /\
  ended (execute_query Edge.urljoin_strict format_value exn_text DataFrame
           to_csv [Responds empty_page]
           auth_credentials (lit "https://[") soql_query api_version
           false true) =
    Uncaught (ValueError (lit "Invalid IPv6 URL")) /\
  ended (main urljoin_origin format_value exn_text DataFrame to_csv
           [Responds empty_page] (JObj []) soql_query api_version
           false true) =
    Uncaught (ValueError missing_credentials).
Proof.
  assert (Hq : soql_query <> []) by discriminate.
  split; [exact Hq|]. split; [|split].
  - destruct (no_data_is_not_an_error urljoin_origin format_value exn_text
                DataFrame to_csv) as (A & _).
    destruct (A [Responds empty_page] auth_credentials base soql_query
                api_version false true full_url Hq eq_refl) as (A1 & _).
    exact (proj2 (A1 (json_body empty_page) eq_refl)).
  - destruct (no_data_is_not_an_error Edge.urljoin_strict format_value
                exn_text DataFrame to_csv) as (_ & B & _).
    exact (proj1 (B [Responds empty_page] auth_credentials (lit "https://[")
                    soql_query api_version false true
                    (ValueError (lit "Invalid IPv6 URL")) Hq eq_refl)).
  - destruct (no_data_is_not_an_error urljoin_origin format_value exn_text
                DataFrame to_csv) as (_ & _ & C & _).
    exact (proj1 (C [Responds empty_page] (JObj []) soql_query api_version
                    false true (ValueError missing_credentials) eq_refl)).
Defined.

(* ------------------------------------------------------------------ *)
(** ** Further properties on the scenarios *)

(** X21.  When one page is asked for, [fetch_data] never consults
    [urljoin] or the instance URL: the run is the same whatever they
    are. *)
Theorem single_page_ignores_instance_url :
  forall (urljoin1 urljoin2 : str -> str -> result str) (frame csv : Type)
         (script : list reply) (url : str) (hs : list (str * str))
         (base1 base2 : str),
    fetch_data urljoin1 frame csv script url hs base1 false =
    fetch_data urljoin2 frame csv script url hs base2 false.
Proof.
  intros urljoin1 urljoin2 frame csv script url hs base1 base2.
  unfold fetch_data.
  destruct url as [|c u]; destruct script as [|rep script]; reflexivity.
Qed.

Lemma loaded_credentials_are_truthy_witness :
  truthy (access_token auth_credentials) = true /\
  truthy (instance_url auth_credentials) = true /\
  exists kvs,
    JObj [(lit "accessToken", JStr (lit "tok1"));
          (lit "instance_url", JStr (lit "my-org.my.salesforce.com"))] =
    JObj kvs /\
    (access_token auth_credentials = value_at kvs (lit "access_token") \/
     access_token auth_credentials = value_at kvs (lit "accessToken")) /\
    (instance_url auth_credentials = value_at kvs (lit "instance_url") \/
     instance_url auth_credentials = value_at kvs (lit "instanceUrl")).
Proof.
  exact (@loaded_credentials_are_truthy
           (JObj [(lit "accessToken", JStr (lit "tok1"));
                  (lit "instance_url", JStr (lit "my-org.my.salesforce.com"))])
           auth_credentials eq_refl).
Defined.

Lemma load_reads_only_the_aliases_witness :
  load_auth_credentials
    (JObj [(lit "access_token", JStr (lit "tok1"));
           (lit "instance_url", JStr (lit "my-org.my.salesforce.com"))]) =
  load_auth_credentials
    (JObj [(lit "username", JStr (lit "me@example.com"));
           (lit "instance_url", JStr (lit "my-org.my.salesforce.com"));
           (lit "access_token", JStr (lit "tok1"))]).
Proof.
  apply load_reads_only_the_aliases.
  intros c; destruct c; split; reflexivity.
Defined.

Lemma falsy_alias_counts_as_missing_witness :
  load_auth_credentials (JObj Edge.null_token_blob) =
  load_auth_credentials (JObj (delete (lit "access_token") Edge.null_token_blob)).
Proof.
  exact (@falsy_alias_counts_as_missing Edge.null_token_blob Token
           (lit "access_token") (or_introl eq_refl) eq_refl).
Defined.

Lemma resolved_base_is_a_url_witness :
  startswith_any base schemes = true /\
  nonempty base = true /\
  no_lead base = true /\
  no_lead (rev base) = true /\
  truthy (access_token auth_credentials) = true /\
  exists raw, instance_url auth_credentials = JStr raw /\ raw <> [] /\
              base = normalize_instance_url raw.
Proof.
  exact (@resolved_base_is_a_url
           (JObj [(lit "accessToken", JStr (lit "tok1"));
                  (lit "instanceUrl", JStr (lit "my-org.my.salesforce.com"))])
           auth_credentials base eq_refl).
Defined.

Lemma blank_endpoint_resolves_to_scheme_witness :
  resolve_credentials Edge.blank_blob =
  Ok ({| access_token := JStr (lit "tok1");
         instance_url := JStr (lit "   ") |}, lit "https://").
Proof.
  exact (@blank_endpoint_resolves_to_scheme Edge.blank_blob
           {| access_token := JStr (lit "tok1");
              instance_url := JStr (lit "   ") |}
           (lit "   ") eq_refl eq_refl eq_refl).
Defined.

Lemma unusable_blob_is_uncaught_witness :
  main urljoin_origin format_value exn_text DataFrame to_csv
       [Responds page1] (JArr [JStr (lit "tok1")]) soql_query api_version
       false true =
  {| ended := Uncaught AttributeError; requests_made := []; page := [] |}.
Proof.
  apply unusable_blob_is_uncaught. left. reflexivity.
Defined.

Lemma first_request_or_unbound_witness :
  fetch_data urljoin_origin (frame_of Empty_set) unit
             [Responds page1] [] headers base true =
    {| outcome := Raised UnboundLocalError; sent := []; shown := [] |} /\
  exists more,
    sent (fetch_data urljoin_origin (frame_of Empty_set) unit
                     [Responds page1; Responds page2] full_url headers base
                     true) =
    request_of headers full_url :: more.
Proof.
  split.
  - exact (proj1 (first_request_or_unbound urljoin_origin (frame_of Empty_set)
                    unit [Responds page1] [] headers base true) eq_refl).
  - apply (first_request_or_unbound urljoin_origin (frame_of Empty_set) unit).
    discriminate.
Defined.

Lemma transport_error_discards_everything_witness :
  page (execute_query urljoin_origin format_value exn_text DataFrame to_csv
          [Responds page1; Fails Edge.timeout]
          auth_credentials base soql_query api_version false true) =
    [st_error (frame_of Empty_set) unit (lit "An error occurred: timed out")] /\
  List.length
    (requests_made
       (execute_query urljoin_origin format_value exn_text DataFrame to_csv
          [Responds page1; Fails Edge.timeout]
          auth_credentials base soql_query api_version false true)) = 2.
Proof.
  assert (Hq : soql_query <> []) by discriminate.
  exact (proj2 (@transport_error_discards_everything
                  urljoin_origin format_value exn_text _ DataFrame _ to_csv
                  auth_credentials base soql_query api_version false true
                  [page1] Edge.timeout [] Hq eq_refl (or_introl eq_refl)
                  eq_refl)).
Defined.

Lemma malformed_page_discards_everything_witness :
  page (execute_query urljoin_origin format_value exn_text DataFrame to_csv
          [Responds page1; Responds Edge.not_json_page]
          auth_credentials base soql_query api_version false true) =
    [st_error (frame_of Empty_set) unit (lit "An error occurred: Expecting value: line 1 column 1 (char 0)")] /\
  List.length
    (requests_made
       (execute_query urljoin_origin format_value exn_text DataFrame to_csv
          [Responds page1; Responds Edge.not_json_page]
          auth_credentials base soql_query api_version false true)) = 2.
Proof.
  assert (Hq : soql_query <> []) by discriminate.
  exact (proj2 (@malformed_page_discards_everything
                  urljoin_origin format_value exn_text _ DataFrame _ to_csv
                  auth_credentials base soql_query api_version false true
                  [page1] Edge.not_json_page JSONDecodeError [] Hq eq_refl
                  (or_introl eq_refl) eq_refl eq_refl
                  (@not_json Edge.not_json_page eq_refl))).
Defined.

Lemma falsy_continuation_ends_pagination_witness :
  outcome (fetch_data urljoin_origin (frame_of Empty_set) unit
             [Responds page1; Responds Edge.null_next; Responds page2]
             full_url headers base true) =
    Returned (Some [r1; r2; r3]) (json_body Edge.null_next) /\
  List.length
    (sent (fetch_data urljoin_origin (frame_of Empty_set) unit
             [Responds page1; Responds Edge.null_next; Responds page2]
             full_url headers base true)) = 2 /\
  shown (fetch_data urljoin_origin (frame_of Empty_set) unit
           [Responds page1; Responds Edge.null_next; Responds page2]
           full_url headers base true) = [].
Proof.
  exact (@falsy_continuation_ends_pagination urljoin_origin
           (frame_of Empty_set) unit headers base full_url [page1]
           Edge.null_next [r3] [Responds page2]
           eq_refl eq_refl eq_refl eq_refl).
Defined.

Lemma missing_records_key_is_no_data_witness :
  page (execute_query urljoin_origin format_value exn_text DataFrame to_csv
          [Responds Edge.no_records]
          auth_credentials base soql_query api_version false true) =
    no_data_page (frame_of Empty_set) unit.
Proof.
  assert (Hq : soql_query <> []) by discriminate.
  exact (proj1 (proj2 (@missing_records_key_is_no_data
                         urljoin_origin format_value exn_text _ DataFrame _
                         to_csv auth_credentials base soql_query api_version
                         false true Edge.no_records
                         [(lit "done", JBool true)] [] Hq eq_refl eq_refl
                         eq_refl eq_refl (or_intror eq_refl)))).
Defined.

Lemma non_str_continuation_is_an_error_witness :
  page (execute_query urljoin_origin format_value exn_text DataFrame to_csv
          [Responds page1; Responds Edge.numeric_next]
          auth_credentials base soql_query api_version false true) =
    [st_error (frame_of Empty_set) unit (lit "An error occurred: Cannot mix str and non-str arguments")].
Proof.
  assert (Hq : soql_query <> []) by discriminate.
  exact (proj1 (proj2 (@non_str_continuation_is_an_error
                         urljoin_origin format_value exn_text _ DataFrame _
                         to_csv auth_credentials base soql_query api_version
                         false [page1] Edge.numeric_next [r3] [] Hq eq_refl
                         eq_refl eq_refl eq_refl eq_refl eq_refl))).
Defined.

Lemma all_pages_is_idle_without_continuation_witness :
  fetch_data urljoin_origin (frame_of Empty_set) unit
             [Responds page2; Responds page1] full_url headers base true =
  fetch_data urljoin_origin (frame_of Empty_set) unit
             [Responds page2; Responds page1] full_url headers base false.
Proof.
  apply all_pages_is_idle_without_continuation.
  intros r H. inversion H. reflexivity.
Defined.

Lemma repeated_reference_is_followed_for_ever_witness :
  fetch_data urljoin_origin (frame_of Empty_set) unit
             [Responds Edge.looping; Responds Edge.looping;
              Responds Edge.looping]
             full_url headers base true =
  {| outcome := Unanswered;
     sent := [request_of headers full_url; request_of headers full_url;
              request_of headers full_url; request_of headers full_url];
     shown := [] |}.
Proof.
  exact (@repeated_reference_is_followed_for_ever urljoin_origin
           (frame_of Empty_set) unit 3 Edge.looping full_url headers base
           eq_refl eq_refl eq_refl).
Defined.

Lemma successful_run_shows_first_url_and_last_page_witness :
  exists last,
    json_body page2 = Some last /\
    page (execute_query urljoin_origin format_value exn_text DataFrame to_csv
            [Responds page1; Responds page2]
            auth_credentials base soql_query api_version false true) =
    [st_dataframe unit (RecordFrame (Table records));
     st_download_button (frame_of Empty_set) tt;
     st_write (frame_of Empty_set) unit (lit "**Formed API URL:**");
     st_code (frame_of Empty_set) unit full_url] ++
    (if truthy last
     then [st_write (frame_of Empty_set) unit (lit "**JSON Response:**");
           st_json (frame_of Empty_set) unit last]
     else []).
Proof.
  assert (Hq : soql_query <> []) by discriminate.
  assert (Hd : items_of [page1] ++ [r3] <> []) by discriminate.
  exact (@successful_run_shows_first_url_and_last_page
           urljoin_origin format_value exn_text _ DataFrame _ to_csv
           auth_credentials base soql_query api_version false
           [page1] page2 [r3] [] (RecordFrame (Table records)) tt
           Hq eq_refl eq_refl eq_refl eq_refl Hd eq_refl eq_refl).
Defined.


Lemma first_page_is_a_prefix_of_all_pages_witness :
  exists first more last1,
    outcome (fetch_data urljoin_origin (frame_of Empty_set) unit
               [Responds page1; Responds page2] full_url headers base false) =
      Returned (Some first) last1 /\
    [r1; r2; r3] = first ++ more.
Proof.
  exact (@first_page_is_a_prefix_of_all_pages urljoin_origin
           (frame_of Empty_set) unit [Responds page1; Responds page2]
           full_url headers base [r1; r2; r3] (json_body page2) eq_refl).
Defined.

Lemma requests_need_upload_and_button_witness :
  exists auth_data c b,
    Some (JObj [(lit "accessToken", JStr (lit "tok1"));
                (lit "instanceUrl", JStr (lit "my-org.my.salesforce.com"))]) =
    Some auth_data /\
    resolve_credentials auth_data = Ok (c, b) /\
    true = true /\
    soql_query <> [].
Proof.
  apply (@requests_need_upload_and_button
           urljoin_origin format_value exn_text _ DataFrame _ to_csv
           [Responds page1; Responds page2]
           (Some (JObj [(lit "accessToken", JStr (lit "tok1"));
                        (lit "instanceUrl",
                         JStr (lit "my-org.my.salesforce.com"))]))
           soql_query api_version false true true).
  discriminate.
Defined.

Lemma credential_error_surfaces_at_upload_witness :
  main_form urljoin_origin format_value exn_text DataFrame to_csv
            [Responds page1] (Some (JObj [])) soql_query api_version
            false true false =
    {| ended := Uncaught (ValueError missing_credentials);
       requests_made := []; page := [] |} /\
  main_form urljoin_origin format_value exn_text DataFrame to_csv
            [Responds page1] (Some (JObj [])) soql_query api_version
            false true false =
  main urljoin_origin format_value exn_text DataFrame to_csv
       [Responds page1] (JObj []) soql_query api_version false true.
Proof.
  exact (@credential_error_surfaces_at_upload
           urljoin_origin format_value exn_text _ DataFrame _ to_csv
           [Responds page1] (JObj []) soql_query api_version false true false
           (ValueError missing_credentials) eq_refl).
Defined.

Lemma urljoin_error_is_caught_only_in_the_loop_witness :
  execute_query Edge.urljoin_strict format_value exn_text DataFrame to_csv
    [Responds page1] auth_credentials (lit "https://[") soql_query
    api_version false true =
    {| ended := Uncaught (ValueError (lit "Invalid IPv6 URL"));
       requests_made := []; page := [] |} /\
  page (execute_query Edge.urljoin_strict format_value exn_text DataFrame
          to_csv [Responds page1; Responds Edge.bracket_next; Responds page2]
          auth_credentials base soql_query api_version false true) =
    [st_error (frame_of Empty_set) unit
       (lit "An error occurred: Invalid IPv6 URL")] /\
  List.length
    (requests_made
       (execute_query Edge.urljoin_strict format_value exn_text DataFrame
          to_csv [Responds page1; Responds Edge.bracket_next; Responds page2]
          auth_credentials base soql_query api_version false true)) = 2.
Proof.
  assert (Hq : soql_query <> []) by discriminate.
  destruct (@urljoin_error_is_caught_only_in_the_loop Edge.urljoin_strict
              format_value exn_text _ DataFrame _ to_csv) as [A B].
  split.
  - exact (A [Responds page1] auth_credentials (lit "https://[") soql_query
             api_version false true (ValueError (lit "Invalid IPv6 URL"))
             Hq eq_refl).
  - exact (proj2 (B auth_credentials base soql_query api_version false
                    [page1] Edge.bracket_next [r3] (lit "//[")
                    (ValueError (lit "Invalid IPv6 URL")) [Responds page2]
                    Hq eq_refl eq_refl eq_refl eq_refl eq_refl)).
Defined.

